(** * Chain allocator and dynamic arrays of the map editor

    A shallow embedding of [CMemBlock], [CChainAllocator], [CDynArray] and
    [CDynArraySB] from [src/game/editor/editor2.h], and the properties of
    the allocator and of the arrays built on it.

    Conventions of the embedding.
    - [int] values are [Z]. Signed overflow is undefined in C++ and is not
      modelled; every quantity below is bounded by [ELT_COUNT_MAX] or by an
      array capacity.
    - Addresses of elements are [Z], counted in units of [sizeof(T)], with
      [0] the null pointer. [cells] is the element memory: a cell that is
      absent is unallocated or was never written.
    - The usage bitmap [m_aRingUsed] is the list of its
      [TOTAL_RING_COUNT] bytes. The bytes that follow the bitmap in the
      same allocation are not part of it: reading them is reported as
      [OutOfBounds].
    - A run that the C++ code cannot continue (a failed [dbg_assert], an
      access outside an array, undefined behaviour) ends in [Fault]. *)

From Stdlib Require Import ZArith Lia List.
From stdpp Require Import base option list gmap strings.

Open Scope Z_scope.

(** ** Outcomes *)

Inductive fault :=
  | AssertFailed (msg : string)
  | OutOfBounds (index : Z)
  | Undefined (what : string)
  | OutOfFuel.

Inductive res (A : Type) :=
  | Ok (a : A)
  | Fault (f : fault).
Arguments Ok {A} a.
Arguments Fault {A} f.

#[global] Instance res_ret : MRet res := fun A a => Ok a.
#[global] Instance res_bind : MBind res := fun A B k m =>
  match m with
  | Ok a => k a
  | Fault f => Fault f
  end.

Definition is_ok {A} (r : res A) : bool :=
  match r with Ok _ => true | Fault _ => false end.

(** Modelled from the spec: [dbg_assert] of [base/system.h], which is not
    part of the sources at hand. The spec calls the assertions of this
    code fatal: a false test ends the run. *)
Definition dbg_assert (test : bool) (msg : string) : res unit :=
  if test then Ok tt else Fault (AssertFailed msg).

(** C++ [/] on [int]: truncation, undefined for a zero divisor. *)
Definition int_div (x y : Z) : res Z :=
  if y =? 0 then Fault (Undefined "division by zero") else Ok (x ÷ y).

(** ** Byte arrays: the usage bitmap *)

Definition read_u8 (l : list Z) (i : Z) : res Z :=
  if i <? 0 then Fault (OutOfBounds i)
  else match l !! Z.to_nat i with
       | Some b => Ok b
       | None => Fault (OutOfBounds i)
       end.

(** Value of a little-endian byte string. *)
Fixpoint le_combine (bs : list Z) : Z :=
  match bs with
  | [] => 0
  | b :: bs => b + 256 * le_combine bs
  end.

(** [*(u64* )(l+i)]: the eight bytes [l[i] .. l[i+7]], all of which have
    to lie inside [l]. *)
Definition read_u64 (l : list Z) (i : Z) : res Z :=
  if i <? 0 then Fault (OutOfBounds i)
  else if Z.of_nat (length l) <? i + 8 then Fault (OutOfBounds (Z.of_nat (length l)))
  else Ok (le_combine (take 8 (drop (Z.to_nat i) l))).

(** [memset(l+start, v, n)] inside the byte array [l]. *)
Definition memset_u8 (l : list Z) (start v n : Z) : res (list Z) :=
  if (start <? 0) || (n <? 0) then Fault (Undefined "memset with a negative offset or size")
  else if Z.of_nat (length l) <? start + n then Fault (OutOfBounds (Z.of_nat (length l)))
  else Ok (take (Z.to_nat start) l ++ replicate (Z.to_nat n) v
           ++ drop (Z.to_nat (start + n)) l).

Definition U64_MAX : Z := 0xFFFFFFFFFFFFFFFF.

(** ** Memory blocks *)

Record CMemBlock := {
  m_pStart : Z;
  m_Count : Z
}.

Definition Get (b : CMemBlock) : Z := m_pStart b.

Section Element.

(** The element type [T] of the templates, plain data, with [zeroT] the
    value whose bytes are all zero. *)
Context {T : Type} (zeroT : T).

(** ** The heap outside the allocator *)

Record Heap := {
  cells : gmap Z T;
  blocks : gmap Z Z;
  brk : Z;
  breaks : nat
}.

(** Modelled from the spec: [mem_alloc] of [base/system.h], the generic
    heap allocation. It returns storage that is separate from every
    block handed out before, here the next [n] addresses after [brk];
    the storage is not initialised. *)
Definition mem_alloc (h : Heap) (n : Z) : res (Heap * Z) :=
  if n <? 0 then Fault (Undefined "mem_alloc of a negative size")
  else Ok ({| cells := cells h;
              blocks := <[brk h := n]> (blocks h);
              brk := brk h + Z.max n 1;
              breaks := breaks h |}, brk h).

Fixpoint free_cells (c : gmap Z T) (p : Z) (n : nat) : gmap Z T :=
  match n with
  | O => c
  | S n => free_cells (delete p c) (p + 1) n
  end.

(** Modelled from the spec: [mem_free] of [base/system.h], the generic
    heap deallocation: it releases a block that [mem_alloc] returned;
    any other pointer but null is undefined behaviour. *)
Definition mem_free (h : Heap) (p : Z) : res Heap :=
  if p =? 0 then Ok h
  else match blocks h !! p with
       | Some n => Ok {| cells := free_cells (cells h) p (Z.to_nat n);
                         blocks := delete p (blocks h);
                         brk := brk h;
                         breaks := breaks h |}
       | None => Fault (Undefined "mem_free of a pointer that mem_alloc did not return")
       end.

(** Modelled from the spec: [dbg_break] of [base/system.h]: it signals a
    breakpoint-equivalent trap, after which the run goes on. *)
Definition dbg_break (h : Heap) : Heap :=
  {| cells := cells h; blocks := blocks h; brk := brk h; breaks := S (breaks h) |}.

Fixpoint stores (c : gmap Z T) (p : Z) (xs : list T) : gmap Z T :=
  match xs with
  | [] => c
  | x :: xs => stores (<[p := x]> c) (p + 1) xs
  end.

Fixpoint loads (c : gmap Z T) (p : Z) (n : nat) : option (list T) :=
  match n with
  | O => Some []
  | S n =>
      match c !! p, loads c (p + 1) n with
      | Some x, Some xs => Some (x :: xs)
      | _, _ => None
      end
  end.

Definition set_cells (h : Heap) (c : gmap Z T) : Heap :=
  {| cells := c; blocks := blocks h; brk := brk h; breaks := breaks h |}.

(** [mem_zero(p, sizeof(T)*n)] *)
Definition mem_zero (h : Heap) (p n : Z) : res Heap :=
  if n <? 0 then Fault (Undefined "mem_zero of a negative size")
  else Ok (set_cells h (stores (cells h) p (replicate (Z.to_nat n) zeroT))).

(** [mem_copy(dst, src, sizeof(T)*n)] and [memmove]: the source is read
    whole before the destination is written. *)
Definition mem_copy (h : Heap) (dst src n : Z) : res Heap :=
  if n <? 0 then Fault (Undefined "mem_copy of a negative size")
  else match loads (cells h) src (Z.to_nat n) with
       | Some xs => Ok (set_cells h (stores (cells h) dst xs))
       | None => Fault (Undefined "mem_copy from storage that holds no value")
       end.

(** [mem_copy(dst, a, sizeof(T)*n)] from an array [a] of the caller. *)
Definition mem_copy_from (h : Heap) (dst : Z) (a : list T) (n : Z) : res Heap :=
  if n <? 0 then Fault (Undefined "mem_copy of a negative size")
  else if Z.of_nat (length a) <? n then Fault (OutOfBounds (Z.of_nat (length a)))
  else Ok (set_cells h (stores (cells h) dst (take (Z.to_nat n) a))).

(** ** CChainAllocator *)

Record CChainAllocator := {
  m_AllocatedSize : Z;
  m_aRingUsed : list Z;
  m_pElementBuffer : Z;
  ELT_COUNT_MAX : Z;
  RING_ELT_COUNT : Z
}.

Definition CChainAllocator_new : CChainAllocator :=
  {| m_AllocatedSize := 0;
     m_aRingUsed := [];
     m_pElementBuffer := 0;
     ELT_COUNT_MAX := 0;
     RING_ELT_COUNT := 1 |}.

(** [Init]. The one [mem_alloc] of the source holds the bitmap and, from
    byte [ELT_COUNT_MAX] on, the elements; here the bitmap is the list
    [m_aRingUsed] and the block of the heap holds the [ELT_COUNT_MAX]
    elements. [sizeof_T] only enters [m_AllocatedSize]. *)
Definition Init (sizeof_T : Z) (h : Heap) (a : CChainAllocator)
    (ElementCountMax RingElementCount : Z) : res (Heap * CChainAllocator) :=
  TOTAL_RING_COUNT ← int_div ElementCountMax RingElementCount;
  _ ← dbg_assert (m_pElementBuffer a =? 0) "Don't init this twice";
  '(h', p) ← mem_alloc h ElementCountMax;
  Ok (h', {| m_AllocatedSize := 1 * TOTAL_RING_COUNT + sizeof_T * ElementCountMax;
             m_aRingUsed := replicate (Z.to_nat TOTAL_RING_COUNT) 0;
             m_pElementBuffer := p;
             ELT_COUNT_MAX := ElementCountMax;
             RING_ELT_COUNT := RingElementCount |}).

Definition set_rings (a : CChainAllocator) (l : list Z) : CChainAllocator :=
  {| m_AllocatedSize := m_AllocatedSize a;
     m_aRingUsed := l;
     m_pElementBuffer := m_pElementBuffer a;
     ELT_COUNT_MAX := ELT_COUNT_MAX a;
     RING_ELT_COUNT := RING_ELT_COUNT a |}.

Definition Clear (a : CChainAllocator) : res CChainAllocator :=
  TOTAL_RING_COUNT ← int_div (ELT_COUNT_MAX a) (RING_ELT_COUNT a);
  l ← memset_u8 (m_aRingUsed a) 0 0 TOTAL_RING_COUNT;
  Ok (set_rings a l).

(** The [for] loop of [Alloc], from the test [i < TOTAL_RING_COUNT] on,
    with [i], [ChainRingStart] and [ChainRingCount] as they are at that
    test. [Some (ChainRingStart, ChainRingCount)] is the run the loop
    leaves with at its [return], [None] the normal end of the loop. Every
    turn costs one unit of [fuel]. *)
Fixpoint Alloc_scan (fuel : nat) (l : list Z) (RING TOTAL_RING_COUNT Count : Z)
    (i ChainRingStart ChainRingCount : Z) : res (option (Z * Z)) :=
  match fuel with
  | O => Fault OutOfFuel
  | S fuel =>
      if i <? TOTAL_RING_COUNT then
        Ring8 ← read_u64 l i;
        if Ring8 =? 0 then
          let ChainRingCount := ChainRingCount + Z.min Count 8 in
          let i := i + (Z.min Count 8 - 1) in
          if ChainRingCount * RING >=? Count
          then Ok (Some (ChainRingStart, ChainRingCount))
          else Alloc_scan fuel l RING TOTAL_RING_COUNT Count
                 (i + 1) ChainRingStart ChainRingCount
        else if Ring8 =? U64_MAX then
          Alloc_scan fuel l RING TOTAL_RING_COUNT Count (i + 7 + 1) (i + 8) 0
        else
          used ← read_u8 l i;
          if negb (used =? 0) then
            Alloc_scan fuel l RING TOTAL_RING_COUNT Count (i + 1) (i + 1) 0
          else
            let ChainRingCount := ChainRingCount + 1 in
            if ChainRingCount * RING >=? Count
            then Ok (Some (ChainRingStart, ChainRingCount))
            else Alloc_scan fuel l RING TOTAL_RING_COUNT Count
                   (i + 1) ChainRingStart ChainRingCount
      else Ok None
  end.

(** [Alloc]; [CONF_DEBUG] tells whether the build defines that macro. *)
Definition Alloc (CONF_DEBUG : bool) (h : Heap) (a : CChainAllocator) (Count : Z)
    : res (Heap * CChainAllocator * CMemBlock) :=
  _ ← dbg_assert (negb (m_pElementBuffer a =? 0)) "Forgot to call Init()";
  TOTAL_RING_COUNT ← int_div (ELT_COUNT_MAX a) (RING_ELT_COUNT a);
  found ← Alloc_scan (S (Z.to_nat TOTAL_RING_COUNT)) (m_aRingUsed a)
            (RING_ELT_COUNT a) TOTAL_RING_COUNT Count 0 0 0;
  match found with
  | Some (ChainRingStart, ChainRingCount) =>
      l ← memset_u8 (m_aRingUsed a) ChainRingStart 255 ChainRingCount;
      let Block := {| m_pStart := m_pElementBuffer a + ChainRingStart * RING_ELT_COUNT a;
                      m_Count := ChainRingCount * RING_ELT_COUNT a |} in
      h' ← mem_zero h (m_pStart Block) (m_Count Block);
      _ ← dbg_assert (ChainRingStart * RING_ELT_COUNT a + m_Count Block <=? ELT_COUNT_MAX a)
            "Something went wrong";
      Ok (h', set_rings a l, Block)
  | None =>
      let h := if CONF_DEBUG then dbg_break h else h in
      '(h, pFallBack) ← mem_alloc h Count;
      let Block := {| m_pStart := pFallBack; m_Count := Count |} in
      h ← mem_zero h (m_pStart Block) (m_Count Block);
      Ok (h, a, Block)
  end.

(** [Dealloc(&Block)]: the block is passed and handed back by value. *)
Definition Dealloc (h : Heap) (a : CChainAllocator) (Block : CMemBlock)
    : res (Heap * CChainAllocator * CMemBlock) :=
  if m_Count Block <=? 0 then Ok (h, a, Block)
  else
    let Start := m_pStart Block - m_pElementBuffer a in
    let Count := m_Count Block in
    '(h, a) ←
      (if (Start >=? 0) && (Start + Count <=? ELT_COUNT_MAX a) then
         s ← int_div Start (RING_ELT_COUNT a);
         c ← int_div Count (RING_ELT_COUNT a);
         l ← memset_u8 (m_aRingUsed a) s 0 c;
         Ok (h, set_rings a l)
       else
         h ← mem_free h (m_pStart Block);
         Ok (h, a));
    Ok (h, a, {| m_pStart := m_pStart Block; m_Count := 0 |}).

Definition AllocOne (CONF_DEBUG : bool) (h : Heap) (a : CChainAllocator)
    : res (Heap * CChainAllocator * Z) :=
  '(h, a, Block) ← Alloc CONF_DEBUG h a 1;
  Ok (h, a, Get Block).

Definition DeallocOne (h : Heap) (a : CChainAllocator) (pPtr : Z)
    : res (Heap * CChainAllocator) :=
  '(h, a, _) ← Dealloc h a {| m_pStart := pPtr; m_Count := 1 |};
  Ok (h, a).

Definition AllocatedSize (a : CChainAllocator) : Z := m_AllocatedSize a.

(** [Deinit]: the allocation that holds the bitmap and the buffer is the
    block of the heap at [m_pElementBuffer]. *)
Definition Deinit (h : Heap) (a : CChainAllocator) : res Heap :=
  mem_free h (m_pElementBuffer a).

(** ** CDynArray

    [m_pAllocator] is the address of the bound allocator, [0] before
    [Init]; the allocator it points to is passed to the functions that
    use it. The destructor [~T()] of an element is that of plain data and
    does nothing. *)

Record CDynArray := {
  m_pAllocator : Z;
  m_MemBlock : CMemBlock;
  m_EltCount : Z
}.

Definition Count (d : CDynArray) : Z := m_EltCount d.
Definition Capacity (d : CDynArray) : Z := m_Count (m_MemBlock d).
Definition Data (d : CDynArray) : Z := m_pStart (m_MemBlock d).

(** The constructor only sets [m_pAllocator]; the other two members hold
    whatever the storage of the object held. *)
Definition CDynArray_new (garbage : CMemBlock) (garbage_count : Z) : CDynArray :=
  {| m_pAllocator := 0; m_MemBlock := garbage; m_EltCount := garbage_count |}.

Definition DynArray_Init (d : CDynArray) (pAllocator : Z) : res CDynArray :=
  _ ← dbg_assert (m_pAllocator d =? 0) "Init already called";
  Ok {| m_pAllocator := pAllocator;
        m_MemBlock := {| m_pStart := 0; m_Count := 0 |};
        m_EltCount := 0 |}.

Definition set_block (d : CDynArray) (b : CMemBlock) : CDynArray :=
  {| m_pAllocator := m_pAllocator d; m_MemBlock := b; m_EltCount := m_EltCount d |}.

Definition set_count (d : CDynArray) (n : Z) : CDynArray :=
  {| m_pAllocator := m_pAllocator d; m_MemBlock := m_MemBlock d; m_EltCount := n |}.

Definition Reserve (CONF_DEBUG : bool) (h : Heap) (a : CChainAllocator)
    (d : CDynArray) (NewCapacity : Z) : res (Heap * CChainAllocator * CDynArray) :=
  _ ← dbg_assert (negb (m_pAllocator d =? 0)) "Forgot to call Init";
  if NewCapacity <=? Capacity d then Ok (h, a, d)
  else
    '(h, a, NewBlock) ← Alloc CONF_DEBUG h a NewCapacity;
    h ← mem_copy h (m_pStart NewBlock) (Data d) (Capacity d);
    '(h, a, _) ← Dealloc h a (m_MemBlock d);
    Ok (h, a, set_block d NewBlock).

(** [Add(aElements, Count)]; [aElements] is an array of the caller. The
    last component of the result is the address of the reference the
    function returns, [Data()-Count]. *)
Definition Add (CONF_DEBUG : bool) (h : Heap) (a : CChainAllocator)
    (d : CDynArray) (aElements : list T) (Count : Z)
    : res (Heap * CChainAllocator * CDynArray * Z) :=
  '(h, a, d) ←
    (if m_EltCount d + Count >=? Capacity d
     then Reserve CONF_DEBUG h a d (Z.max (Capacity d * 2) (m_EltCount d + Count))
     else Ok (h, a, d));
  h ← mem_copy_from h (Data d + m_EltCount d) aElements Count;
  let d := set_count d (m_EltCount d + Count) in
  Ok (h, a, d, Data d - Count).

Definition Add1 (CONF_DEBUG : bool) (h : Heap) (a : CChainAllocator)
    (d : CDynArray) (Elt : T) : res (Heap * CChainAllocator * CDynArray * Z) :=
  Add CONF_DEBUG h a d [Elt] 1.

Definition AddEmpty (CONF_DEBUG : bool) (h : Heap) (a : CChainAllocator)
    (d : CDynArray) (Count : Z) : res (Heap * CChainAllocator * CDynArray * Z) :=
  _ ← dbg_assert (Count >? 0) "Add 0 or more";
  '(h, a, d) ←
    (if m_EltCount d + Count >=? Capacity d
     then Reserve CONF_DEBUG h a d (Z.max (Capacity d * 2) (m_EltCount d + Count))
     else Ok (h, a, d));
  h ← mem_zero h (Data d + m_EltCount d) Count;
  let d := set_count d (m_EltCount d + Count) in
  Ok (h, a, d, Data d - Count).


Definition load (h : Heap) (p : Z) : res T :=
  match cells h !! p with
  | Some x => Ok x
  | None => Fault (Undefined "read of storage that holds no value")
  end.

Definition RemoveByIndex (h : Heap) (d : CDynArray) (Index : Z)
    : res (Heap * CDynArray) :=
  _ ← dbg_assert ((Index >=? 0) && (Index <? m_EltCount d)) "Index out of bounds";
  x ← load h (Data d + (m_EltCount d - 1));
  Ok (set_cells h (<[Data d + Index := x]> (cells h)), set_count d (m_EltCount d - 1)).

Definition RemoveByIndexSlide (h : Heap) (d : CDynArray) (Index : Z)
    : res (Heap * CDynArray) :=
  _ ← dbg_assert ((Index >=? 0) && (Index <? m_EltCount d)) "Index out of bounds";
  h ← mem_copy h (Data d + Index) (Data d + Index + 1) (m_EltCount d - (Index + 1));
  Ok (h, set_count d (m_EltCount d - 1)).

(** [operator[]] *)
Definition at_index (h : Heap) (d : CDynArray) (Index : Z) : res T :=
  _ ← dbg_assert ((Index >=? 0) && (Index <? m_EltCount d)) "Index out of bounds";
  load h (m_pStart (m_MemBlock d) + Index).

(** The live elements [Data()[0] .. Data()[Count()-1]], when each holds a
    value. *)
Definition elements (h : Heap) (d : CDynArray) : option (list T) :=
  loads (cells h) (Data d) (Z.to_nat (m_EltCount d)).

(** ** Callers of the allocator

    A caller keeps the blocks it was given in a table of descriptors;
    [OpDealloc k] passes the address of entry [k] to [Dealloc]. *)

Inductive op :=
  | OpAlloc (Count : Z)
  | OpDealloc (k : nat).

Record client := {
  c_heap : Heap;
  c_alloc : CChainAllocator;
  c_blocks : list CMemBlock
}.

Definition step (CONF_DEBUG : bool) (c : client) (o : op) : res client :=
  match o with
  | OpAlloc Count =>
      '(h, a, Block) ← Alloc CONF_DEBUG (c_heap c) (c_alloc c) Count;
      Ok {| c_heap := h; c_alloc := a; c_blocks := c_blocks c ++ [Block] |}
  | OpDealloc k =>
      match c_blocks c !! k with
      | Some Block =>
          '(h, a, Block) ← Dealloc (c_heap c) (c_alloc c) Block;
          Ok {| c_heap := h; c_alloc := a; c_blocks := <[k := Block]> (c_blocks c) |}
      | None => Ok c
      end
  end.

Fixpoint run (CONF_DEBUG : bool) (c : client) (ops : list op) : res client :=
  match ops with
  | [] => Ok c
  | o :: ops => c ← step CONF_DEBUG c o; run CONF_DEBUG c ops
  end.

(** A caller that starts with a fresh allocator. *)
Definition start (sizeof_T : Z) (h : Heap) (ElementCountMax RingElementCount : Z)
    : res client :=
  '(h, a) ← Init sizeof_T h CChainAllocator_new ElementCountMax RingElementCount;
  Ok {| c_heap := h; c_alloc := a; c_blocks := [] |}.

(** [Dealloc] tells a block of the pool by this test. *)
Definition in_pool (a : CChainAllocator) (b : CMemBlock) : bool :=
  let Start := m_pStart b - m_pElementBuffer a in
  (Start >=? 0) && (Start + m_Count b <=? ELT_COUNT_MAX a).


(** The rings of a block of the pool: first ring and number of rings, as
    [Dealloc] computes them. *)
Definition ring_start (a : CChainAllocator) (b : CMemBlock) : Z :=
  (m_pStart b - m_pElementBuffer a) ÷ RING_ELT_COUNT a.
Definition ring_count (a : CChainAllocator) (b : CMemBlock) : Z :=
  m_Count b ÷ RING_ELT_COUNT a.

(** Calls of [Add] one after the other. *)
Fixpoint AddAll (CONF_DEBUG : bool) (h : Heap) (a : CChainAllocator) (d : CDynArray)
    (calls : list (list T * Z)) : res (Heap * CChainAllocator * CDynArray) :=
  match calls with
  | [] => Ok (h, a, d)
  | (aElements, n) :: calls =>
      '(h, a, d, _) ← Add CONF_DEBUG h a d aElements n;
      AddAll CONF_DEBUG h a d calls
  end.

End Element.

Arguments Heap : clear implicits.

(** ** Well-formed states

    The entries of the bitmap are bytes. *)

Definition bytes_ok (l : list Z) : Prop := Forall (fun b => 0 <= b <= 255) l.

(** ** First fit, ring by ring

    The scan as the spec words it: the first contiguous run of free rings
    whose combined capacity is at least [Count], the request rounded up
    to ring granularity. It is the reference the scan of [Alloc] is
    compared with. *)

Definition rings_needed (RING Count : Z) : Z := (Count + RING - 1) `div` RING.

Fixpoint naive_first_fit (l : list Z) (need : nat) (s : Z) : option Z :=
  if (need <=? length l)%nat && forallb (Z.eqb 0) (take need l) then Some s
  else match l with
       | [] => None
       | _ :: l => naive_first_fit l need (s + 1)
       end.

Definition naive_Alloc (a : CChainAllocator) (Count : Z) : option CMemBlock :=
  let need := rings_needed (RING_ELT_COUNT a) Count in
  s ← naive_first_fit (m_aRingUsed a) (Z.to_nat need) 0;
  Some {| m_pStart := m_pElementBuffer a + s * RING_ELT_COUNT a;
          m_Count := need * RING_ELT_COUNT a |}.

(** ** CDynArraySB

    The class derives from [array<T, ALLOCATOR>] of [base/tl/array.h],
    which is not part of the sources at hand. Of an array only the
    members [list], [list_size] and [num_elements] are modelled, not the
    values of its elements. *)

Module CDynArraySB.

Inductive op :=
  | OpClear
  | OpAlloc (new_len : Z)
  | OpSetSizeZero (new_size : Z)
  | OpDeleteAll.

Definition trace := list op.

(** The storage the ALLOCATOR of the array manages: the addresses of the
    arrays it handed out and the next address it hands out. *)
Record Store := {
  arrays : gset Z;
  next : Z
}.

(** Modelled from the spec: [ALLOCATOR::alloc_array] of
    [base/tl/allocator.h]: a separately allocated buffer. *)
Definition alloc_array (s : Store) (n : Z) : Store * Z :=
  ({| arrays := {[next s]} ∪ arrays s; next := next s + Z.max n 1 |}, next s).

(** Modelled from the spec: [ALLOCATOR::free_array] of
    [base/tl/allocator.h]; it takes null or a buffer of [alloc_array]. *)
Definition free_array (s : Store) (p : Z) : res Store :=
  if p =? 0 then Ok s
  else if decide (p ∈ arrays s)
       then Ok {| arrays := arrays s ∖ {[p]}; next := next s |}
       else Fault (Undefined "free_array of a pointer that alloc_array did not return").

Record t := {
  list : Z;
  list_size : Z;
  num_elements : Z;
  m_BaseData : Z;
  BASE_COUNT : Z
}.

Definition with_parent (x : t) (l sz n : Z) : t :=
  {| list := l; list_size := sz; num_elements := n;
     m_BaseData := m_BaseData x; BASE_COUNT := BASE_COUNT x |}.

(** Modelled from the spec: [array::clear] of [base/tl/array.h]: it
    releases the buffer and leaves an empty array in a buffer of its
    own. *)
Definition ParentT_clear (s : Store) (x : t) : res (Store * t) :=
  s ← free_array s (list x);
  let '(s, p) := alloc_array s 1 in
  Ok (s, with_parent x p 1 0).

(** Modelled from the spec: [array::alloc] of [base/tl/array.h]: it
    moves the elements that fit to a separately allocated buffer of
    [new_len] elements and releases the old one. *)
Definition ParentT_alloc (s : Store) (x : t) (new_len : Z) : res (Store * t) :=
  let '(s, new_list) := alloc_array s new_len in
  s ← free_array s (list x);
  Ok (s, with_parent x new_list new_len (Z.min (num_elements x) new_len)).

(** [CDynArraySB()], for an object whose member [m_BaseData] lies at
    [pBaseData]. *)
Definition new (pBaseData BaseCount : Z) : t :=
  {| list := pBaseData; list_size := BaseCount; num_elements := 0;
     m_BaseData := pBaseData; BASE_COUNT := BaseCount |}.

Definition clear (s : Store) (x : t) : res (Store * t) :=
  if list x =? m_BaseData x
  then Ok (s, with_parent x (list x) (BASE_COUNT x) 0)
  else ParentT_clear s x.

Definition alloc (s : Store) (x : t) (new_len : Z) : res (Store * t) :=
  let x := if list x =? m_BaseData x
           then with_parent x 0 (list_size x) (num_elements x) else x in
  ParentT_alloc s x new_len.

(** Modelled from the spec: [array::set_size] of [base/tl/array.h]: it
    grows the buffer through [alloc] when the new size exceeds the
    capacity. The call is taken to reach [alloc] of this class; once
    [list] has left the inline buffer, that is [ParentT::alloc]. *)
Definition ParentT_set_size (s : Store) (x : t) (new_size : Z) : res (Store * t) :=
  '(s, x) ← (if list_size x <? new_size then alloc s x new_size else Ok (s, x));
  Ok (s, with_parent x (list x) (list_size x) new_size).

Definition set_size_zero (s : Store) (x : t) (new_size : Z) : res (Store * t) :=
  ParentT_set_size s x new_size.

(** Modelled from the spec: [array::delete_all] of [base/tl/array.h]:
    it deletes what the elements point to and clears the array. *)
Definition ParentT_delete_all (s : Store) (x : t) : res (Store * t) :=
  ParentT_clear s x.

Definition delete_all (s : Store) (x : t) : res (Store * t) :=
  if list x =? m_BaseData x then clear s x else ParentT_delete_all s x.

Definition capacity (x : t) : Z := list_size x.

Definition step (sx : Store * t) (o : op) : res (Store * t) :=
  match o with
  | OpClear => clear sx.1 sx.2
  | OpAlloc new_len => alloc sx.1 sx.2 new_len
  | OpSetSizeZero new_size => set_size_zero sx.1 sx.2 new_size
  | OpDeleteAll => delete_all sx.1 sx.2
  end.

Fixpoint run (sx : Store * t) (ops : trace) : res (Store * t) :=
  match ops with
  | [] => Ok sx
  | o :: ops => sx ← step sx o; run sx ops
  end.

(** The active storage is the inline buffer. *)
Definition is_inline (x : t) : bool := list x =? m_BaseData x.

End CDynArraySB.

(** ** Invariants of the allocator and of its callers *)

Section Invariants.

Context {T : Type}.

(** An allocator that [Init] has set up. *)
Record wf_alloc (a : CChainAllocator) : Prop := {
  wf_buffer : 0 < m_pElementBuffer a;
  wf_ring : 1 <= RING_ELT_COUNT a;
  wf_max : 0 <= ELT_COUNT_MAX a;
  wf_length : Z.of_nat (length (m_aRingUsed a)) = ELT_COUNT_MAX a ÷ RING_ELT_COUNT a;
  wf_bytes : bytes_ok (m_aRingUsed a)
}.

(** [b] is the block of the pool made of the [c] rings from ring [s] on. *)
Definition pool_block (a : CChainAllocator) (b : CMemBlock) (s c : Z) : Prop :=
  m_pStart b = m_pElementBuffer a + s * RING_ELT_COUNT a /\
  m_Count b = c * RING_ELT_COUNT a /\
  0 <= s /\ 0 < c /\
  s + c <= ELT_COUNT_MAX a ÷ RING_ELT_COUNT a.

(** Every ring of the run [s, s+c) has the value [v] in the bitmap [l]. *)
Definition rings_are (l : list Z) (v s c : Z) : Prop :=
  forall r, s <= r < s + c -> l !! Z.to_nat r = Some v.



Definition zeroed (b : CMemBlock) : CMemBlock :=
  {| m_pStart := m_pStart b; m_Count := 0 |}.




(** The holder of [b] owns storage nobody else is given: [b] is empty, a
    run of rings marked used, or a block of [mem_alloc] past the buffer
    of the pool. *)
Definition owned (h : Heap T) (a : CChainAllocator) (b : CMemBlock) : Prop :=
  m_Count b = 0 \/
  (exists s n, pool_block a b s n /\ rings_are (m_aRingUsed a) 255 s n) \/
  (m_pElementBuffer a + ELT_COUNT_MAX a <= m_pStart b /\
   blocks h !! m_pStart b = Some (m_Count b) /\
   0 < m_Count b /\
   m_pStart b + m_Count b <= brk h).

(** The [need] rings from ring [p] on lie in the bitmap [l] and are free. *)
Definition free_run (l : list Z) (need p : Z) : Prop :=
  0 <= p /\ p + need <= Z.of_nat (length l) /\ rings_are l 0 p need.

(** [a'] manages the buffer that [a] manages. *)
Definition same_pool (a a' : CChainAllocator) : Prop :=
  m_pElementBuffer a' = m_pElementBuffer a /\
  ELT_COUNT_MAX a' = ELT_COUNT_MAX a /\
  RING_ELT_COUNT a' = RING_ELT_COUNT a.


(** What holds of an array and its allocator between two calls: the
    allocator is set up, the array is bound, its live elements fit its
    block, every element of the block holds a value, and the array owns
    the block. *)
Record dyn_inv (h : Heap T) (a : CChainAllocator) (d : CDynArray) : Prop := {
  di_wf : wf_alloc a;
  di_brk : m_pElementBuffer a + ELT_COUNT_MAX a <= brk h;
  di_bound : m_pAllocator d <> 0;
  di_count : 0 <= m_EltCount d <= Capacity d;
  di_cells : forall p, Data d <= p < Data d + Capacity d -> is_Some (cells h !! p);
  di_block : owned h a (m_MemBlock d)
}.

(** [wf_alloc], decided. *)
Definition wf_allocb (a : CChainAllocator) : bool :=
  (0 <? m_pElementBuffer a) && (1 <=? RING_ELT_COUNT a) && (0 <=? ELT_COUNT_MAX a)
  && (Z.of_nat (length (m_aRingUsed a)) =? ELT_COUNT_MAX a ÷ RING_ELT_COUNT a)
  && forallb (fun b => (0 <=? b) && (b <=? 255)) (m_aRingUsed a).

(** [owned] and [dyn_inv], decided. *)
Definition ownedb (h : Heap T) (a : CChainAllocator) (b : CMemBlock) : bool :=
  (m_Count b =? 0)
  || ((m_pStart b =? m_pElementBuffer a + ring_start a b * RING_ELT_COUNT a)
      && (m_Count b =? ring_count a b * RING_ELT_COUNT a)
      && (0 <=? ring_start a b) && (0 <? ring_count a b)
      && (ring_start a b + ring_count a b <=? ELT_COUNT_MAX a ÷ RING_ELT_COUNT a)
      && forallb (fun r => bool_decide (m_aRingUsed a !! Z.to_nat r = Some 255))
           (seqZ (ring_start a b) (ring_count a b)))
  || ((m_pElementBuffer a + ELT_COUNT_MAX a <=? m_pStart b)
      && bool_decide (blocks h !! m_pStart b = Some (m_Count b))
      && (0 <? m_Count b)
      && (m_pStart b + m_Count b <=? brk h)).

Definition dyn_invb (h : Heap T) (a : CChainAllocator) (d : CDynArray) : bool :=
  wf_allocb a
  && (m_pElementBuffer a + ELT_COUNT_MAX a <=? brk h)
  && negb (m_pAllocator d =? 0)
  && (0 <=? m_EltCount d) && (m_EltCount d <=? Capacity d)
  && forallb (fun p => match cells h !! p with Some _ => true | None => false end)
       (seqZ (Data d) (Capacity d))
  && ownedb h a (m_MemBlock d).


(** What a call of [Alloc] or [Dealloc] leaves of the bitmap and of the
    block it returns. *)
Definition rings_and_block (r : res (Heap T * CChainAllocator * CMemBlock))
    : res (list Z * CMemBlock) :=
  '(_, a, b) ← r; Ok (m_aRingUsed a, b).

End Invariants.

(** ** Concrete states *)

Module Ex.

Definition heap0 : Heap Z := {| cells := ∅; blocks := ∅; brk := 1000; breaks := 0 |}.

Definition get {A} (r : res A) (d : A) : A :=
  match r with Ok a => a | Fault _ => d end.

(** A pool of 64 elements in rings of 8 elements, fresh. *)
Definition pool64 : Heap Z * CChainAllocator := Eval vm_compute in get (Init 4 heap0 CChainAllocator_new 64 8) (heap0, CChainAllocator_new).

(** The same pool after [Alloc(5)]. *)
Definition pool64_5 : Heap Z * CChainAllocator * CMemBlock :=
  get (Alloc 0 false pool64.1 pool64.2 5) (pool64, {| m_pStart := 0; m_Count := 0 |}).

(** A pool of 64 elements in rings of 1 element, fresh, and an array
    bound to it. *)
Definition pool1 : Heap Z * CChainAllocator := Eval vm_compute in get (Init 4 heap0 CChainAllocator_new 64 1) (heap0, CChainAllocator_new).

Definition array0 : CDynArray :=
  get (DynArray_Init (CDynArray_new {| m_pStart := 0; m_Count := 0 |} 0) 1)
      (CDynArray_new {| m_pStart := 0; m_Count := 0 |} 0).

(** The array after [Add(10)], [Add(20)], [Add(30)]. *)
Definition array3 : Heap Z * CChainAllocator * CDynArray :=
  get (AddAll 0 false pool1.1 pool1.2 array0 [([10], 1); ([20], 1); ([30], 1)])
      (pool1, array0).

End Ex.

Module Ex2.

Import Ex.

(** The pool of 64 rings of 1 element after [Alloc(3)], [Alloc(2)],
    [Dealloc] of the first block and [Alloc(1)]. *)
Definition ops : list op := [OpAlloc 3; OpAlloc 2; OpDealloc 0; OpAlloc 1].




(** An array of the small-buffer kind whose inline buffer of 64 elements
    lies at address 10, after [alloc(100)]. *)
Definition store0 : CDynArraySB.Store := {| CDynArraySB.arrays := ∅; CDynArraySB.next := 100 |}.


Definition small : CDynArraySB.Store * CDynArraySB.t :=
  get (CDynArraySB.alloc store0 (CDynArraySB.new 10 64) 100) (store0, CDynArraySB.new 10 64).

End Ex2.

(** ** Byte arrays: strings *)

(** [memmove(dst, src, n)] into the byte array [dst] from the bytes at
    [src], which are read whole before [dst] is written. *)
Definition memmove_u8 (dst src : list Z) (n : Z) : res (list Z) :=
  if n <? 0 then Fault (Undefined "memmove of a negative size")
  else if Z.of_nat (length src) <? n then Fault (OutOfBounds (Z.of_nat (length src)))
  else if Z.of_nat (length dst) <? n then Fault (OutOfBounds (Z.of_nat (length dst)))
  else Ok (take (Z.to_nat n) src ++ drop (Z.to_nat n) dst).

(** [l[i] = v] *)
Definition write_u8 (l : list Z) (i v : Z) : res (list Z) :=
  if (i <? 0) || (Z.of_nat (length l) <=? i) then Fault (OutOfBounds i)
  else Ok (<[Z.to_nat i := v]> l).

(** The characters of the C string held in [l]: the bytes before the
    first zero. *)
Fixpoint c_str (l : list Z) : list Z :=
  match l with
  | [] => []
  | c :: l => if c =? 0 then [] else c :: c_str l
  end.

(** ** CHistoryEntry

    The three pointers are addresses; the two character arrays are the
    lists of their 64 bytes. [str_length] of [base/system.h] is not part
    of the sources at hand and is a parameter of the two functions: it is
    given the bytes from [pStr] on. *)

Record CHistoryEntry := {
  m_pPrev : Z;
  m_pNext : Z;
  m_pSnap : Z;
  m_aActionStr : list Z;
  m_aDescStr : list Z
}.

Section HistoryEntry.

Variable str_length : list Z -> Z.

Definition SetAction (e : CHistoryEntry) (pStr : list Z) : res CHistoryEntry :=
  let Len := Z.min (64 - 1) (str_length pStr) in
  l ← memmove_u8 (m_aActionStr e) pStr Len;
  l ← write_u8 l Len 0;
  Ok {| m_pPrev := m_pPrev e; m_pNext := m_pNext e; m_pSnap := m_pSnap e;
        m_aActionStr := l; m_aDescStr := m_aDescStr e |}.

Definition SetDescription (e : CHistoryEntry) (pStr : list Z) : res CHistoryEntry :=
  let Len := Z.min (64 - 1) (str_length pStr) in
  l ← memmove_u8 (m_aDescStr e) pStr Len;
  l ← write_u8 l Len 0;
  Ok {| m_pPrev := m_pPrev e; m_pNext := m_pNext e; m_pSnap := m_pSnap e;
        m_aActionStr := m_aActionStr e; m_aDescStr := l |}.

End HistoryEntry.

(** ** CEditorMap: new arrays

    [NewTileArray] and [NewQuadArray] construct an array, whose block and
    count are not set by the constructor, and bind it to the dispenser
    at [pDispenser]. *)

Definition NewTileArray (garbage : CMemBlock) (garbage_count : Z) (pTileDispenser : Z)
    : res CDynArray :=
  DynArray_Init (CDynArray_new garbage garbage_count) pTileDispenser.

Definition NewQuadArray (garbage : CMemBlock) (garbage_count : Z) (pQuadDispenser : Z)
    : res CDynArray :=
  DynArray_Init (CDynArray_new garbage garbage_count) pQuadDispenser.

(** ** The allocation of [Init], in bytes

    [Init] asks [mem_alloc] for [m_AllocatedSize] bytes, keeps their
    address as [m_aRingUsed] and sets [m_pElementBuffer] to
    [(T* )(m_aRingUsed+ELT_COUNT_MAX)]: the buffer starts
    [ELT_COUNT_MAX] bytes into the allocation. [byte_offset sizeof_T a p]
    is the offset from [m_aRingUsed], in bytes, of the element address
    [p]. *)
Definition byte_offset (sizeof_T : Z) (a : CChainAllocator) (p : Z) : Z :=
  ELT_COUNT_MAX a + sizeof_T * (p - m_pElementBuffer a).

(** ** Further predicates and concrete states *)




(** A call on an array of the small-buffer kind that asks for no more
    than the inline buffer holds. *)
Definition fits_inline (x : CDynArraySB.t) (o : CDynArraySB.op) : bool :=
  match o with
  | CDynArraySB.OpClear => true
  | CDynArraySB.OpAlloc _ => false
  | CDynArraySB.OpSetSizeZero new_size => new_size <=? CDynArraySB.BASE_COUNT x
  | CDynArraySB.OpDeleteAll => true
  end.

Module Ex3.

(** The characters before the first zero byte, counted. *)
Fixpoint strlen (p : list Z) : Z :=
  match p with
  | [] => 0
  | c :: p => if c =? 0 then 0 else 1 + strlen p
  end.

Definition entry0 : CHistoryEntry :=
  {| m_pPrev := 0; m_pNext := 0; m_pSnap := 0;
     m_aActionStr := replicate 64 7; m_aDescStr := replicate 64 9 |}.

(** "Undo" as a C string. *)
Definition undo : list Z := [85; 110; 100; 111; 0].

End Ex3.

(** * Properties *)

(** ** Outcomes *)

Lemma bind_Ok {A B} (m : res A) (k : A -> res B) (b : B) :
  m ≫= k = Ok b -> exists a, m = Ok a /\ k a = Ok b.
Proof. destruct m as [a|f]; [by exists a|discriminate]. Qed.

Lemma bind_Ok_eq {A B} (m : res A) (k : A -> res B) (a : A) :
  m = Ok a -> m ≫= k = k a.
Proof. by intros ->. Qed.

Ltac bind_ok H x Hx :=
  apply bind_Ok in H as (x & Hx & H).

(** ** Bytes and the bitmap *)

Lemma le_combine_nonneg bs : bytes_ok bs -> 0 <= le_combine bs.
Proof.
  induction 1 as [|b bs Hb _ IH]; simpl; lia.
Qed.

Lemma le_combine_zero bs :
  bytes_ok bs -> le_combine bs = 0 -> Forall (fun b => b = 0) bs.
Proof.
  induction 1 as [|b bs Hb Hbs IH]; simpl; intros Hz; constructor.
  - pose proof (le_combine_nonneg bs Hbs). lia.
  - apply IH. pose proof (le_combine_nonneg bs Hbs). lia.
Qed.

Lemma bytes_ok_slice l n k : bytes_ok l -> bytes_ok (take n (drop k l)).
Proof.
  intros H. unfold bytes_ok in *.
  apply Forall_take, Forall_drop, H.
Qed.

Lemma read_u64_bounds l i v :
  read_u64 l i = Ok v -> 0 <= i /\ i + 8 <= Z.of_nat (length l).
Proof.
  unfold read_u64. intros H.
  destruct (Z.ltb_spec i 0); [discriminate|].
  destruct (Z.ltb_spec (Z.of_nat (length l)) (i + 8)); [discriminate|]. lia.
Qed.

Lemma read_u64_zero l i r :
  bytes_ok l -> read_u64 l i = Ok 0 -> i <= r < i + 8 ->
  l !! Z.to_nat r = Some 0.
Proof.
  intros Hl H Hr. pose proof (read_u64_bounds _ _ _ H) as [Hi Hlen].
  unfold read_u64 in H.
  destruct (Z.ltb_spec i 0); [lia|].
  destruct (Z.ltb_spec (Z.of_nat (length l)) (i + 8)); [lia|].
  injection H as H.
  apply le_combine_zero in H; [|by apply bytes_ok_slice].
  assert (Hlk : take 8 (drop (Z.to_nat i) l) !! Z.to_nat (r - i)
                = l !! Z.to_nat r).
  { rewrite lookup_take_lt by lia. rewrite lookup_drop. f_equal. lia. }
  destruct (l !! Z.to_nat r) as [b|] eqn:Hb.
  - rewrite Forall_lookup in H. by rewrite (H _ _ Hlk).
  - apply lookup_ge_None in Hb. lia.
Qed.

Lemma read_u8_Ok l i b :
  read_u8 l i = Ok b -> 0 <= i /\ l !! Z.to_nat i = Some b.
Proof.
  unfold read_u8. destruct (Z.ltb_spec i 0); [discriminate|].
  destruct (l !! Z.to_nat i); [|discriminate]. intros [= ->]. auto with lia.
Qed.






(** ** The scan of [Alloc] *)

(** The run the scan leaves with lies inside the bitmap, is free and is
    large enough. *)
Lemma Alloc_scan_sound fuel l RING TOTAL Count :
  bytes_ok l ->
  forall i start cnt s c,
    0 <= start -> start + cnt = i ->
    (forall r, start <= r < start + cnt -> l !! Z.to_nat r = Some 0) ->
    Alloc_scan fuel l RING TOTAL Count i start cnt = Ok (Some (s, c)) ->
    0 <= s /\ s + c <= Z.of_nat (length l) /\ c * RING >= Count /\
    (forall r, s <= r < s + c -> l !! Z.to_nat r = Some 0).
Proof.
  intros Hl. induction fuel as [|fuel IH]; intros i start cnt s c Hs Hi Hfree H;
    simpl in H; [discriminate|].
  destruct (Z.ltb_spec i TOTAL); [|discriminate].
  destruct (read_u64 l i) as [Ring8|] eqn:HR; simpl in H; [|discriminate].
  pose proof (read_u64_bounds _ _ _ HR) as [Hi0 Hi8].
  destruct (Z.eqb_spec Ring8 0) as [->|HnZ].
  { assert (Hfree' : forall r, start <= r < start + (cnt + Z.min Count 8) ->
                        l !! Z.to_nat r = Some 0).
    { intros r Hr. destruct (Z.lt_ge_cases r i).
      - apply Hfree. lia.
      - eapply read_u64_zero; eauto. lia. }
    destruct (Z.geb_spec ((cnt + Z.min Count 8) * RING) Count).
    - injection H as <- <-. split_and!; auto; lia.
    - eapply IH in H; eauto. lia. }
  destruct (Z.eqb_spec Ring8 U64_MAX).
  { eapply IH in H; eauto; [lia|lia|]. intros r Hr. lia. }
  destruct (read_u8 l i) as [used|] eqn:HU; simpl in H; [|discriminate].
  apply read_u8_Ok in HU as [_ HU].
  destruct (Z.eqb_spec used 0) as [->|Hused]; simpl in H.
  - assert (Hfree' : forall r, start <= r < start + (cnt + 1) ->
                        l !! Z.to_nat r = Some 0).
    { intros r Hr. destruct (Z.lt_ge_cases r i).
      - apply Hfree. lia.
      - by replace r with i by lia. }
    destruct (Z.geb_spec ((cnt + 1) * RING) Count).
    + injection H as <- <-. split_and!; auto; lia.
    + eapply IH in H; eauto. lia.
  - eapply IH in H; eauto; [lia|lia|]. intros r Hr. lia.
Qed.

(** ** Element memory *)

Section Memory.

Context {T : Type} (zeroT : T).
Implicit Types (c : gmap Z T) (h : Heap T) (xs : list T).

Lemma lookup_stores_outside c p xs q :
  ~ (p <= q < p + Z.of_nat (length xs)) -> stores c p xs !! q = c !! q.
Proof.
  revert c p. induction xs as [|x xs IH]; intros c p Hq; simpl in *; [done|].
  rewrite IH by lia. apply lookup_insert_ne. lia.
Qed.

Lemma lookup_stores_inside c p xs q :
  p <= q < p + Z.of_nat (length xs) ->
  stores c p xs !! q = xs !! Z.to_nat (q - p).
Proof.
  revert c p. induction xs as [|x xs IH]; intros c p Hq; simpl in *; [lia|].
  destruct (decide (q = p)) as [->|Hne].
  - rewrite lookup_stores_outside by lia.
    rewrite lookup_insert_eq. by replace (p - p) with 0 by lia.
  - rewrite IH by lia.
    replace (Z.to_nat (q - p)) with (S (Z.to_nat (q - (p + 1)))) by lia. done.
Qed.

Lemma loads_length c p n xs : loads c p n = Some xs -> length xs = n.
Proof.
  revert p xs. induction n as [|n IH]; intros p xs; simpl.
  - by intros [= <-].
  - destruct (c !! p); [|discriminate].
    destruct (loads c (p + 1) n) eqn:E; [|discriminate].
    intros [= <-]. simpl. f_equal. eauto.
Qed.

Lemma loads_lookup c p n xs k :
  loads c p n = Some xs -> (k < n)%nat -> xs !! k = c !! (p + Z.of_nat k).
Proof.
  revert p xs k. induction n as [|n IH]; intros p xs k; simpl; [lia|].
  destruct (c !! p) eqn:Ep; [|discriminate].
  destruct (loads c (p + 1) n) eqn:E; [|discriminate].
  intros [= <-] Hk. destruct k as [|k]; simpl.
  - rewrite <- Ep. f_equal. lia.
  - erewrite IH by (eauto; lia). f_equal. lia.
Qed.

Lemma loads_is_Some c p n :
  (forall q, p <= q < p + Z.of_nat n -> is_Some (c !! q)) -> is_Some (loads c p n).
Proof.
  revert p. induction n as [|n IH]; intros p Hc; simpl; [by eexists|].
  destruct (Hc p) as [x ->]; [lia|].
  destruct (IH (p + 1)) as [xs ->]; [|by eexists].
  intros q Hq. apply Hc. lia.
Qed.


Lemma loads_eq_Some c p n xs :
  length xs = n ->
  (forall k, (k < n)%nat -> c !! (p + Z.of_nat k) = xs !! k) ->
  loads c p n = Some xs.
Proof.
  revert p xs. induction n as [|n IH]; intros p xs Hlen Hc; simpl.
  - by destruct xs.
  - destruct xs as [|x xs]; [done|]. simpl in Hlen.
    specialize (Hc 0%nat ltac:(lia)) as Hc0. simpl in Hc0.
    replace (p + Z.of_nat 0) with p in Hc0 by lia. rewrite Hc0.
    rewrite (IH (p + 1) xs); [done|lia|].
    intros k Hk. specialize (Hc (S k) ltac:(lia)). simpl in Hc.
    rewrite <- Hc. f_equal. lia.
Qed.

Lemma lookup_free_cells_outside c p n q :
  ~ (p <= q < p + Z.of_nat n) -> free_cells c p n !! q = c !! q.
Proof.
  revert c p. induction n as [|n IH]; intros c p Hq; simpl; [done|].
  rewrite IH by lia. apply lookup_delete_ne. lia.
Qed.

Lemma lookup_free_cells_inside c p n q :
  p <= q < p + Z.of_nat n -> free_cells c p n !! q = None.
Proof.
  revert c p. induction n as [|n IH]; intros c p Hq; simpl; [lia|].
  destruct (decide (q = p)) as [->|Hne].
  - rewrite lookup_free_cells_outside by lia. apply lookup_delete_eq.
  - apply IH. lia.
Qed.




End Memory.

(** ** What [Alloc] returns *)

Section Allocator.

Context {T : Type} (zeroT : T).
Implicit Types (h : Heap T) (a : CChainAllocator) (b : CMemBlock).

Lemma int_div_Ok x y q : int_div x y = Ok q -> y <> 0 /\ q = x ÷ y.
Proof.
  unfold int_div. destruct (Z.eqb_spec y 0); [discriminate|]. by intros [= <-].
Qed.

Lemma dbg_assert_Ok test msg u : dbg_assert test msg = Ok u -> test = true.
Proof. destruct test; [done|discriminate]. Qed.




End Allocator.

(** ** What [Dealloc] does *)

Section Deallocation.

Context {T : Type}.
Implicit Types (h : Heap T) (a : CChainAllocator) (b : CMemBlock).

Lemma quot_mul_le M R : 0 <= M -> 1 <= R -> (M ÷ R) * R <= M.
Proof.
  intros HM HR. rewrite Z.quot_div_nonneg by lia.
  pose proof (Z.mul_div_le M R ltac:(lia)). lia.
Qed.

Lemma quot_nonneg M R : 0 <= M -> 1 <= R -> 0 <= M ÷ R.
Proof. intros. apply Z.quot_pos; lia. Qed.





Lemma Dealloc_nop h a b : m_Count b <= 0 -> Dealloc h a b = Ok (h, a, b).
Proof. intros Hc. unfold Dealloc. by destruct (Z.leb_spec (m_Count b) 0); [|lia]. Qed.

(** The three ways [Dealloc] returns. *)
Lemma Dealloc_Ok h a b h' a' b' :
  Dealloc h a b = Ok (h', a', b') ->
  (m_Count b <= 0 /\ h' = h /\ a' = a /\ b' = b) \/
  (0 < m_Count b /\ in_pool a b = true /\ h' = h /\ b' = zeroed b /\
   exists l', memset_u8 (m_aRingUsed a) (ring_start a b) 0 (ring_count a b) = Ok l' /\
              a' = set_rings a l') \/
  (0 < m_Count b /\ in_pool a b = false /\ a' = a /\ b' = zeroed b /\
   mem_free h (m_pStart b) = Ok h').
Proof.
  unfold Dealloc. destruct (Z.leb_spec (m_Count b) 0) as [Hc|Hc].
  { intros [= <- <- <-]. auto. }
  intros H. right. bind_ok H ha Hha. destruct ha as [h1 a1].
  injection H as <- <- <-. fold (in_pool a b) in Hha.
  destruct (in_pool a b) eqn:Hin.
  - left. bind_ok Hha s Hs. bind_ok Hha c Hcq. bind_ok Hha l' Hset.
    injection Hha as <- <-.
    apply int_div_Ok in Hs as [_ ->]. apply int_div_Ok in Hcq as [_ ->].
    split_and!; eauto.
  - right. bind_ok Hha h2 Hfree. injection Hha as <- <-. auto.
Qed.



End Deallocation.

(** ** Callers: live blocks of the pool do not meet *)

Section Callers.

Context {T : Type} (zeroT : T).
Implicit Types (h : Heap T) (a : CChainAllocator) (b : CMemBlock)
  (c : client (T:=T)).

Lemma pool_block_set_rings a l b s n :
  pool_block (set_rings a l) b s n <-> pool_block a b s n.
Proof. done. Qed.

Lemma wf_set_rings a l :
  wf_alloc a -> length l = length (m_aRingUsed a) -> bytes_ok l ->
  wf_alloc (set_rings a l).
Proof.
  intros [] Hlen Hl. constructor; simpl; auto. by rewrite Hlen.
Qed.

Lemma Init_Ok sizeof_T h a M R h' a' :
  0 < brk h -> 0 <= M -> 0 <= R ->
  Init sizeof_T h a M R = Ok (h', a') ->
  wf_alloc a' /\ ELT_COUNT_MAX a' = M /\ RING_ELT_COUNT a' = R /\
  m_pElementBuffer a' = brk h /\
  m_pElementBuffer a' + ELT_COUNT_MAX a' <= brk h' /\
  m_aRingUsed a' = replicate (Z.to_nat (M ÷ R)) 0.
Proof.
  intros Hbrk HM HR H. unfold Init in H.
  bind_ok H TOTAL Hdiv. bind_ok H u Hu. bind_ok H hp Halloc.
  destruct hp as [h1 p]. injection H as <- <-.
  apply int_div_Ok in Hdiv as [HR0 ->].
  unfold mem_alloc in Halloc. destruct (Z.ltb_spec M 0); [lia|].
  injection Halloc as <- <-. simpl.
  pose proof (quot_nonneg M R HM ltac:(lia)).
  split_and!; auto; [|lia].
  constructor; simpl; auto; try lia.
  - rewrite length_replicate. lia.
  - apply Forall_replicate. lia.
Qed.




End Callers.

(** ** Blocks that are owned *)

Section Owned.

Context {T : Type} (zeroT : T).
Implicit Types (h : Heap T) (a : CChainAllocator) (b : CMemBlock).





End Owned.

(** ** CDynArray *)

Section DynArray.

Context {T : Type} (zeroT : T).
Implicit Types (h : Heap T) (a : CChainAllocator) (b : CMemBlock) (d : CDynArray).







Lemma DynArray_Init_inv h a d pAllocator d' :
  wf_alloc a -> m_pElementBuffer a + ELT_COUNT_MAX a <= brk h ->
  pAllocator <> 0 ->
  DynArray_Init d pAllocator = Ok d' -> dyn_inv h a d'.
Proof.
  intros Hwf Hbrk Hp H. unfold DynArray_Init in H. bind_ok H u Hu.
  injection H as <-.
  constructor; unfold Capacity, Data; simpl;
    first [done | lia | by intros; lia | by left].
Qed.

End DynArray.

(** ** The scan and first fit

    Where the scan of [Alloc] returns, it starts its run where first fit
    ring by ring starts it, and the run is at least as long; where it
    ends without a run, first fit finds none. *)

Lemma le_combine_upper bs : bytes_ok bs -> le_combine bs <= 256 ^ Z.of_nat (length bs) - 1.
Proof.
  induction 1 as [|b bs Hb _ IH]; simpl length; [simpl; lia|].
  rewrite Nat2Z.inj_succ, Z.pow_succ_r by lia. simpl. lia.
Qed.

Lemma le_combine_ones bs :
  bytes_ok bs -> le_combine bs = 256 ^ Z.of_nat (length bs) - 1 ->
  Forall (fun b => b = 255) bs.
Proof.
  induction 1 as [|b bs Hb Hbs IH]; [constructor|].
  simpl length. rewrite Nat2Z.inj_succ, Z.pow_succ_r by lia. simpl. intros H.
  pose proof (le_combine_upper bs Hbs).
  constructor; [lia|]. apply IH. lia.
Qed.

Lemma read_u64_ones l i r :
  bytes_ok l -> read_u64 l i = Ok U64_MAX -> i <= r < i + 8 ->
  l !! Z.to_nat r = Some 255.
Proof.
  intros Hl H Hr. pose proof (read_u64_bounds _ _ _ H) as [Hi Hlen].
  unfold read_u64 in H.
  destruct (Z.ltb_spec i 0); [lia|].
  destruct (Z.ltb_spec (Z.of_nat (length l)) (i + 8)); [lia|].
  injection H as H.
  assert (Hlen8 : length (take 8 (drop (Z.to_nat i) l)) = 8%nat).
  { rewrite length_take, length_drop. lia. }
  assert (H' : le_combine (take 8 (drop (Z.to_nat i) l))
               = 256 ^ Z.of_nat (length (take 8 (drop (Z.to_nat i) l))) - 1).
  { rewrite Hlen8. exact H. }
  clear H. apply le_combine_ones in H' as H; [|by apply bytes_ok_slice].
  assert (Hlk : take 8 (drop (Z.to_nat i) l) !! Z.to_nat (r - i)
                = l !! Z.to_nat r).
  { rewrite lookup_take_lt by lia. rewrite lookup_drop. f_equal. lia. }
  destruct (l !! Z.to_nat r) as [b|] eqn:Hb.
  - rewrite Forall_lookup in H. by rewrite (H _ _ Hlk).
  - apply lookup_ge_None in Hb. lia.
Qed.

Lemma rings_needed_le RING Count c :
  1 <= RING -> (Count <= c * RING <-> rings_needed RING Count <= c).
Proof.
  intros HR. unfold rings_needed.
  pose proof (Z.div_mod (Count + RING - 1) RING ltac:(lia)) as Hdm.
  pose proof (Z.mod_pos_bound (Count + RING - 1) RING ltac:(lia)) as Hm.
  split; intros H; nia.
Qed.

Lemma naive_first_fit_spec L need pre l :
  L = pre ++ l ->
  match naive_first_fit l need (Z.of_nat (length pre)) with
  | Some s =>
      Z.of_nat (length pre) <= s /\ free_run L (Z.of_nat need) s /\
      forall p, Z.of_nat (length pre) <= p < s -> ~ free_run L (Z.of_nat need) p
  | None => forall p, Z.of_nat (length pre) <= p -> ~ free_run L (Z.of_nat need) p
  end.
Proof.
  revert pre. induction l as [|x l IH]; intros pre ->.
  - simpl. destruct (Nat.leb_spec need 0) as [Hn|Hn]; simpl.
    + assert (need = 0%nat) as -> by lia. simpl. split_and!; [lia| |intros; lia].
      split_and!; [lia|rewrite length_app; simpl; lia|intros r Hr; lia].
    + replace (need <=? 0)%nat with false by (symmetry; apply Nat.leb_gt; lia).
      simpl. intros p Hp (_ & Hlen & _). rewrite length_app in Hlen. simpl in Hlen. lia.
  - cbn [naive_first_fit].
    destruct ((need <=? length (x :: l))%nat && forallb (Z.eqb 0) (take need (x :: l)))
      eqn:Htest.
    + apply andb_true_iff in Htest as [Hlen Hall]. apply Nat.leb_le in Hlen.
      split_and!; [lia| |intros; lia].
      split_and!; [lia|rewrite length_app; lia|].
      intros r Hr. rewrite forallb_forall in Hall.
      assert (Hlk : (pre ++ x :: l) !! Z.to_nat r
                    = take need (x :: l) !! (Z.to_nat r - length pre)%nat).
      { rewrite lookup_app_r by lia. by rewrite lookup_take_lt by lia. }
      rewrite Hlk.
      destruct (lookup_lt_is_Some_2 (take need (x :: l)) (Z.to_nat r - length pre)%nat)
        as [y Hy]; [rewrite length_take; lia|].
      rewrite Hy. f_equal. symmetry. apply Z.eqb_eq, Hall.
      apply list_elem_of_In. eapply list_elem_of_lookup_2; eauto.
    + assert (Hhere : ~ free_run (pre ++ x :: l) (Z.of_nat need) (Z.of_nat (length pre))).
      { intros (_ & Hlen & Hfree). rewrite length_app in Hlen.
        apply andb_false_iff in Htest as [Hf|Hf].
        - apply Nat.leb_gt in Hf. lia.
        - assert (forallb (Z.eqb 0) (take need (x :: l)) = true); [|congruence].
          apply forallb_forall. intros y Hy.
          apply list_elem_of_In, list_elem_of_lookup in Hy as [j Hj].
          pose proof (lookup_lt_Some _ _ _ Hj) as Hjl. rewrite length_take in Hjl.
          rewrite lookup_take_lt in Hj by lia.
          specialize (Hfree (Z.of_nat (length pre + j)) ltac:(lia)).
          rewrite Nat2Z.id, lookup_app_r in Hfree by lia.
          replace (length pre + j - length pre)%nat with j in Hfree by lia.
          rewrite Hj in Hfree. injection Hfree as ->. reflexivity. }
      specialize (IH (pre ++ [x])). rewrite <- app_assoc in IH. simpl in IH.
      specialize (IH eq_refl). rewrite length_app in IH. simpl in IH.
      replace (Z.of_nat (length pre + 1)) with (Z.of_nat (length pre) + 1) in IH by lia.
      destruct (naive_first_fit l need (Z.of_nat (length pre) + 1)) as [s|].
      * destruct IH as (Hs & Hrun & Hmin). split_and!; [lia|done|].
        intros p Hp. destruct (decide (p = Z.of_nat (length pre))) as [->|]; [done|].
        apply Hmin. lia.
      * intros p Hp. destruct (decide (p = Z.of_nat (length pre))) as [->|]; [done|].
        apply IH. lia.
Qed.

Lemma Alloc_scan_first_fit fuel l RING Count need :
  bytes_ok l -> 1 <= RING -> 1 <= Count -> need = rings_needed RING Count ->
  forall i start cnt,
    0 <= start -> 0 <= cnt < need -> start + cnt = i ->
    rings_are l 0 start cnt ->
    (forall p, 0 <= p < start -> ~ free_run l need p) ->
    match Alloc_scan fuel l RING (Z.of_nat (length l)) Count i start cnt with
    | Ok (Some (s, c)) =>
        free_run l need s /\ (forall p, 0 <= p < s -> ~ free_run l need p) /\ need <= c
    | Ok None => forall p, 0 <= p -> ~ free_run l need p
    | Fault _ => True
    end.
Proof.
  intros Hl HR HC ->. set (need := rings_needed RING Count).
  induction fuel as [|fuel IH]; intros i start cnt Hs Hcnt Hi Hfree Hmin; [done|].
  simpl. destruct (Z.ltb_spec i (Z.of_nat (length l))) as [Hlt|Hge].
  2:{ intros p Hp Hrun.
      destruct (Z.lt_ge_cases p start); [by apply (Hmin p)|].
      destruct Hrun as (_ & Hlen & _). lia. }
  destruct (read_u64 l i) as [Ring8|] eqn:HR8; simpl; [|done].
  pose proof (read_u64_bounds _ _ _ HR8) as [Hi0 Hi8].
  assert (Hblocked : forall q p, 0 <= p <= q -> q = i \/ q = p ->
             l !! Z.to_nat q <> Some 0 -> ~ free_run l need p).
  { intros q p Hp Hq Hused Hrun.
    destruct (Z.lt_ge_cases p start) as [|Hps]; [by apply (Hmin p); [lia|]|].
    destruct Hrun as (_ & _ & Hrun). apply Hused, Hrun. lia. }
  destruct (Z.eqb_spec Ring8 0) as [->|HnZ].
  { assert (Hfree' : rings_are l 0 start (cnt + Z.min Count 8)).
    { intros r Hr. destruct (Z.lt_ge_cases r i).
      - apply Hfree. lia.
      - eapply read_u64_zero; eauto. lia. }
    destruct (Z.geb_spec ((cnt + Z.min Count 8) * RING) Count) as [Hge|Hlt'].
    - apply rings_needed_le in Hge; [|done]. fold need in Hge.
      split_and!; [|done|done].
      split_and!; [done|lia|]. intros r Hr. apply Hfree'. lia.
    - apply IH; [done| |lia|done|done].
      split; [lia|]. destruct (Z.lt_ge_cases (cnt + Z.min Count 8) need); [done|].
      assert (Count <= (cnt + Z.min Count 8) * RING); [|lia].
      apply rings_needed_le; [done|]. fold need. lia. }
  destruct (Z.eqb_spec Ring8 U64_MAX) as [->|HnM].
  { apply IH; [lia|lia|lia|intros r Hr; lia|].
    intros p Hp.
    destruct (Z.le_gt_cases p i).
    - apply (Hblocked i); [lia|by left|].
      rewrite (read_u64_ones l i i) by (done || lia). discriminate.
    - apply (Hblocked p); [lia|by right|].
      rewrite (read_u64_ones l i p) by (done || lia). discriminate. }
  destruct (read_u8 l i) as [used|] eqn:HU; simpl; [|done].
  apply read_u8_Ok in HU as [_ HU].
  destruct (Z.eqb_spec used 0) as [->|Hused]; simpl.
  - assert (Hfree' : rings_are l 0 start (cnt + 1)).
    { intros r Hr. destruct (Z.lt_ge_cases r i).
      - apply Hfree. lia.
      - by replace r with i by lia. }
    destruct (Z.geb_spec ((cnt + 1) * RING) Count) as [Hge|Hlt'].
    + apply rings_needed_le in Hge; [|done]. fold need in Hge.
      split_and!; [|done|done].
      split_and!; [done|lia|]. intros r Hr. apply Hfree'. lia.
    + apply IH; [done| |lia|done|done].
      split; [lia|]. destruct (Z.lt_ge_cases (cnt + 1) need); [done|].
      assert (Count <= (cnt + 1) * RING); [|lia].
      apply rings_needed_le; [done|]. fold need. lia.
  - apply IH; [lia|lia|lia|intros r Hr; lia|].
    intros p Hp. apply (Hblocked i); [lia|by left|].
    rewrite HU. congruence.
Qed.

Lemma Alloc_starts_at_first_fit {T : Type} (zeroT : T) CONF_DEBUG (h : Heap T)
    a Count h' a' b :
  wf_alloc a -> 1 <= Count ->
  Alloc zeroT CONF_DEBUG h a Count = Ok (h', a', b) ->
  match naive_Alloc a Count with
  | Some b0 => m_pStart b = m_pStart b0 /\ m_Count b0 <= m_Count b
  | None => b = {| m_pStart := brk h; m_Count := Count |}
  end.
Proof.
  intros Hwf HC H. pose proof (wf_ring _ Hwf) as HR.
  set (need := rings_needed (RING_ELT_COUNT a) Count).
  assert (Hneed : 1 <= need).
  { destruct (Z.le_gt_cases 1 need); [done|].
    assert (Count <= 0 * RING_ELT_COUNT a); [|lia].
    apply rings_needed_le; [done|]. fold need. lia. }
  pose proof (naive_first_fit_spec (m_aRingUsed a) (Z.to_nat need) [] (m_aRingUsed a)
                eq_refl) as Hnaive.
  rewrite Z2Nat.id in Hnaive by lia. simpl in Hnaive.
  change (Z.of_nat 0) with 0 in Hnaive.
  unfold naive_Alloc. fold need.
  unfold Alloc in H. bind_ok H u Hu. bind_ok H TOTAL Hdiv. bind_ok H found Hscan.
  apply int_div_Ok in Hdiv as [_ ->]. rewrite <- (wf_length _ Hwf) in Hscan.
  pose proof (Alloc_scan_first_fit (S (Z.to_nat (Z.of_nat (length (m_aRingUsed a)))))
                (m_aRingUsed a) (RING_ELT_COUNT a) Count need (wf_bytes _ Hwf) HR HC
                eq_refl 0 0 0 ltac:(lia) ltac:(lia) ltac:(lia)
                ltac:(intros r Hr; lia) ltac:(intros p Hp; lia)) as Hfit.
  rewrite Hscan in Hfit.
  destruct found as [[s c]|].
  - destruct Hfit as (Hrun & Hmin & Hc).
    bind_ok H l' Hset. bind_ok H h1 Hzero. bind_ok H u' Hu'.
    injection H as <- <- <-. simpl. revert Hnaive.
    destruct (naive_first_fit (m_aRingUsed a) (Z.to_nat need) 0) as [s'|]; simpl;
      intros Hnaive.
    + destruct Hnaive as (Hs' & Hrun' & Hmin').
      assert (s = s') as <-.
      { destruct (Z.lt_trichotomy s s') as [|[|]]; [|done|].
        - exfalso. apply (Hmin' s); [destruct Hrun; lia|done].
        - exfalso. apply (Hmin s'); [lia|done]. }
      split; [done|nia].
    + exfalso. apply (Hnaive s); [destruct Hrun; lia|done].
  - revert Hnaive.
    destruct (naive_first_fit (m_aRingUsed a) (Z.to_nat need) 0) as [s'|]; simpl;
      intros Hnaive.
    + destruct Hnaive as (Hs' & Hrun' & _). exfalso. by apply (Hfit s'); [lia|].
    + bind_ok H hp Halloc. destruct hp as [h1 p]. bind_ok H h2 Hzero.
      injection H as <- <- <-.
      unfold mem_alloc in Halloc. destruct (Count <? 0); [done|].
      injection Halloc as <- <-. by destruct CONF_DEBUG.
Qed.

(** ** The scan ends *)

Lemma Alloc_scan_ends fuel l RING TOTAL Count :
  0 <= Count -> 1 <= RING ->
  forall i start cnt,
    0 <= cnt -> Z.max 0 (TOTAL - i) < Z.of_nat fuel ->
    Alloc_scan fuel l RING TOTAL Count i start cnt <> Fault OutOfFuel.
Proof.
  intros HC HR. induction fuel as [|fuel IH]; intros i start cnt Hcnt Hfuel; [lia|].
  simpl. destruct (Z.ltb_spec i TOTAL); [|done].
  destruct (read_u64 l i) as [Ring8|f] eqn:HR8; simpl.
  2:{ unfold read_u64 in HR8.
      destruct (i <? 0); [by injection HR8 as <-|].
      destruct (_ <? i + 8); [by injection HR8 as <-|done]. }
  destruct (Ring8 =? 0).
  { destruct (Z.geb_spec ((cnt + Z.min Count 8) * RING) Count); [done|].
    apply IH; [lia|]. assert (Count <> 0) by nia. lia. }
  destruct (Ring8 =? U64_MAX); [apply IH; lia|].
  destruct (read_u8 l i) as [used|f] eqn:HU; simpl.
  2:{ unfold read_u8 in HU.
      destruct (i <? 0); [by injection HU as <-|].
      destruct (l !! Z.to_nat i); [done|by injection HU as <-]. }
  destruct (negb (used =? 0)); [apply IH; lia|].
  destruct (Z.geb_spec ((cnt + 1) * RING) Count); [done|].
  apply IH; lia.
Qed.

Lemma bind_Fault {A B} (m : res A) (k : A -> res B) (f : fault) :
  m ≫= k = Fault f -> m = Fault f \/ exists a, m = Ok a /\ k a = Fault f.
Proof. destruct m as [a|f']; intros H; [right; by exists a|left; by injection H as ->]. Qed.

(** [Alloc] does not run out of fuel on a request that is not negative. *)
Lemma Alloc_has_fuel {T : Type} (zeroT : T) CONF_DEBUG (h : Heap T) a Count :
  wf_alloc a -> 0 <= Count ->
  Alloc zeroT CONF_DEBUG h a Count <> Fault OutOfFuel.
Proof.
  intros Hwf HC H. unfold Alloc in H.
  pose proof (wf_ring _ Hwf).
  pose proof (quot_nonneg _ _ (wf_max _ Hwf) (wf_ring _ Hwf)).
  apply bind_Fault in H as [H|(u & _ & H)];
    [unfold dbg_assert in H; by destruct (negb _)|].
  apply bind_Fault in H as [H|(TOTAL & Hd & H)];
    [unfold int_div in H; by destruct (_ =? _)|].
  apply int_div_Ok in Hd as [_ ->].
  apply bind_Fault in H as [H|(found & _ & H)].
  { revert H. apply Alloc_scan_ends; lia. }
  destruct found as [[s c]|].
  - apply bind_Fault in H as [H|(l' & _ & H)].
    { unfold memset_u8 in H. destruct (_ || _); [done|]. by destruct (_ <? _). }
    apply bind_Fault in H as [H|(h1 & _ & H)].
    { unfold mem_zero in H. by destruct (_ <? _). }
    apply bind_Fault in H as [H|(u' & _ & H)]; [|done].
    unfold dbg_assert in H. by destruct (_ <=? _).
  - apply bind_Fault in H as [H|([h1 p] & _ & H)].
    { unfold mem_alloc in H. by destruct (_ <? _). }
    apply bind_Fault in H as [H|(h2 & _ & H)]; [|done].
    unfold mem_zero in H. by destruct (_ <? _).
Qed.

(** A scan that ends without a run makes [Alloc] return a block of
    [mem_alloc] of [Count] zero elements, in either build. *)
Lemma Alloc_fallback {T : Type} (zeroT : T) CONF_DEBUG (h : Heap T) a Count :
  wf_alloc a -> 0 <= Count ->
  Alloc_scan (S (Z.to_nat (ELT_COUNT_MAX a ÷ RING_ELT_COUNT a))) (m_aRingUsed a)
    (RING_ELT_COUNT a) (ELT_COUNT_MAX a ÷ RING_ELT_COUNT a) Count 0 0 0 = Ok None ->
  exists h',
    Alloc zeroT CONF_DEBUG h a Count
    = Ok (h', a, {| m_pStart := brk h; m_Count := Count |}) /\
    blocks h' !! brk h = Some Count /\
    loads (cells h') (brk h) (Z.to_nat Count) = Some (replicate (Z.to_nat Count) zeroT).
Proof.
  intros Hwf HC Hscan. unfold Alloc.
  pose proof (wf_buffer _ Hwf). pose proof (wf_ring _ Hwf).
  assert (Ha : dbg_assert (negb (m_pElementBuffer a =? 0)) "Forgot to call Init()"
               = Ok tt).
  { unfold dbg_assert. by destruct (Z.eqb_spec (m_pElementBuffer a) 0); [lia|]. }
  assert (Hd : int_div (ELT_COUNT_MAX a) (RING_ELT_COUNT a)
               = Ok (ELT_COUNT_MAX a ÷ RING_ELT_COUNT a)).
  { unfold int_div. by destruct (Z.eqb_spec (RING_ELT_COUNT a) 0); [lia|]. }
  rewrite (bind_Ok_eq _ _ _ Ha), (bind_Ok_eq _ _ _ Hd), (bind_Ok_eq _ _ _ Hscan).
  unfold mem_alloc.
  destruct (Z.ltb_spec Count 0); [lia|]. simpl.
  unfold mem_zero. simpl. destruct (Z.ltb_spec Count 0); [lia|]. simpl.
  destruct CONF_DEBUG; simpl; (eexists; split; [reflexivity|]; simpl; split;
    [apply lookup_insert_eq|]);
    (apply loads_eq_Some; [by rewrite length_replicate|]);
    intros k Hk; (rewrite lookup_stores_inside by (rewrite length_replicate; lia));
    f_equal; lia.
Qed.

(** A turn of the loop at one of the last seven rings reads past the
    bitmap. *)
Lemma Alloc_scan_tail_read fuel l RING Count i start cnt :
  0 <= i < Z.of_nat (length l) -> Z.of_nat (length l) < i + 8 ->
  Alloc_scan (S fuel) l RING (Z.of_nat (length l)) Count i start cnt
  = Fault (OutOfBounds (Z.of_nat (length l))).
Proof.
  intros Hi Hi8. simpl. destruct (Z.ltb_spec i (Z.of_nat (length l))); [|lia].
  unfold read_u64. destruct (Z.ltb_spec i 0); [lia|].
  by destruct (Z.ltb_spec (Z.of_nat (length l)) (i + 8)); [|lia].
Qed.

Lemma wf_allocb_true a : wf_allocb a = true -> wf_alloc a.
Proof.
  unfold wf_allocb. rewrite !andb_true_iff.
  intros [[[[H1 H2] H3] H4] H5]. constructor.
  - by apply Z.ltb_lt.
  - by apply Z.leb_le.
  - by apply Z.leb_le.
  - by apply Z.eqb_eq.
  - unfold bytes_ok. apply Forall_forall. intros b Hb.
    rewrite forallb_forall in H5. specialize (H5 b).
    rewrite <- list_elem_of_In in H5. specialize (H5 Hb).
    apply andb_true_iff in H5 as [?%Z.leb_le ?%Z.leb_le]. lia.
Qed.

(** * The claims *)



(** C2: on a fresh allocator with [ElementCountMax = 64] and
    [RingElementCount = 8], [Alloc(5)] marks five rings used and returns a
    block of 40 zero elements, in either build, where first fit ring by
    ring returns one ring of 8 elements; on a fresh allocator with rings
    of one element, [Alloc(10)] returns 16 elements where first fit ring
    by ring returns 10. The start of the block is the same each time. *)
Theorem Alloc_takes_more_rings_than_first_fit :
  (forall CONF_DEBUG,
     rings_and_block (Alloc 0 CONF_DEBUG Ex.pool64.1 Ex.pool64.2 5)
     = Ok ([255; 255; 255; 255; 255; 0; 0; 0], {| m_pStart := 1000; m_Count := 40 |})) /\
  loads (cells Ex.pool64_5.1.1) 1000 40 = Some (replicate 40 0) /\
  naive_Alloc Ex.pool64.2 5 = Some {| m_pStart := 1000; m_Count := 8 |} /\
  (forall CONF_DEBUG,
     rings_and_block (Alloc 0 CONF_DEBUG Ex.pool1.1 Ex.pool1.2 10)
     = Ok (replicate 16 255 ++ replicate 48 0,
           {| m_pStart := 1000; m_Count := 16 |})) /\
  naive_Alloc Ex.pool1.2 10 = Some {| m_pStart := 1000; m_Count := 10 |}.
Proof.
  split_and!; try (intros []); vm_compute; reflexivity.
Qed.

(** C3: with rings 0 to 4 of the eight rings used, no run of free rings
    holds 64 elements, and [Alloc(64)] does not reach its fallback in
    either build: after ring 0 the scan reads the eight bytes from ring
    1 on, the last of which lies past the bitmap. What the loop does
    next is decided by the bytes that follow the bitmap: when they are 0
    it leaves with the rings 5 to 12 of a bitmap of 8 rings, when they
    are not it ends without a run. *)
Theorem Alloc_64_after_Alloc_5 :
  let l := m_aRingUsed Ex.pool64_5.1.2 in
  l = [255; 255; 255; 255; 255; 0; 0; 0] /\
  naive_Alloc Ex.pool64_5.1.2 64 = None /\
  (forall CONF_DEBUG,
     rings_and_block (Alloc 0 CONF_DEBUG Ex.pool64_5.1.1 Ex.pool64_5.1.2 64)
     = Fault (OutOfBounds 8)) /\
  Alloc_scan 9 (l ++ [0; 0; 0; 0; 0; 0; 0]) 8 8 64 0 0 0 = Ok (Some (5, 8)) /\
  Alloc_scan 9 (l ++ [1; 1; 1; 1; 1; 1; 1]) 8 8 64 0 0 0 = Ok None.
Proof.
  cbv zeta. split_and!; try (intros []); vm_compute; reflexivity.
Qed.

(** C10: the scan of [Alloc] reads bitmap entries at and past
    [TOTAL_RING_COUNT]. With eight rings of which ring 0 is used, the
    read of eight bytes at ring 1 needs entry 8; with a bitmap of four
    rings, the first read of a scan needs entries 4 to 7. *)
Theorem Alloc_scan_reads_past_the_bitmap :
  (let l := [255; 255; 255; 255; 255; 0; 0; 0] in
   Z.of_nat (length l) = 8 /\
   read_u64 l 1 = Fault (OutOfBounds 8) /\
   forall Count, Alloc_scan 9 l 8 8 Count 0 0 0 = Fault (OutOfBounds 8)) /\
  (let l := [0; 0; 0; 0] in
   Z.of_nat (length l) = 4 /\
   forall RING Count, Alloc_scan 5 l RING 4 Count 0 0 0 = Fault (OutOfBounds 4)).
Proof.
  cbv zeta. split_and!; try reflexivity; intros; reflexivity.
Qed.



(** C9: when [Dealloc] returns, the count of the descriptor it was given
    is 0 or was at most 0 before, and [Dealloc] of the descriptor as it
    is then returns with the heap, the allocator, so its bitmap and
    buffer, and the descriptor unchanged. *)
Theorem Dealloc_idempotent {T : Type} (h : Heap T) (a : CChainAllocator)
    (b : CMemBlock) (h' : Heap T) (a' : CChainAllocator) (b' : CMemBlock) :
  Dealloc h a b = Ok (h', a', b') ->
  (0 < m_Count b -> m_Count b' = 0) /\
  Dealloc h' a' b' = Ok (h', a', b').
Proof.
  intros H.
  apply Dealloc_Ok in H
    as [(Hc & -> & -> & ->)|[(Hc & _ & -> & -> & _)|(Hc & _ & -> & -> & _)]].
  - split; [lia|]. by apply Dealloc_nop.
  - split; [done|]. by apply Dealloc_nop.
  - split; [done|]. by apply Dealloc_nop.
Qed.

Lemma Dealloc_idempotent_witness :
  let '(h, a, b) := Ex.pool64_5 in
  let a' := set_rings a [0; 0; 0; 0; 0; 0; 0; 0] in
  (0 < m_Count b -> m_Count (zeroed b) = 0) /\
  Dealloc h a' (zeroed b) = Ok (h, a', zeroed b).
Proof.
  apply (Dealloc_idempotent Ex.pool64_5.1.1 Ex.pool64_5.1.2 Ex.pool64_5.2).
  vm_compute. reflexivity.
Defined.

Lemma forallb_seqZ (f : Z -> bool) lo n p :
  forallb f (seqZ lo n) = true -> lo <= p < lo + n -> f p = true.
Proof.
  intros H Hp. rewrite forallb_forall in H. apply H.
  apply list_elem_of_In, elem_of_seqZ. lia.
Qed.

Lemma ownedb_true {T : Type} (h : Heap T) a b : ownedb h a b = true -> owned h a b.
Proof.
  unfold ownedb. rewrite !orb_true_iff, !andb_true_iff.
  intros [[Hz|[[[[[H1 H2] H3] H4] H5] H6]]|[[[H1 H2] H3] H4]].
  - left. by apply Z.eqb_eq.
  - right; left. exists (ring_start a b), (ring_count a b). split.
    + unfold pool_block. apply Z.eqb_eq in H1, H2.
      apply Z.leb_le in H3, H5. apply Z.ltb_lt in H4. by split_and!.
    + intros r Hr. eapply (forallb_seqZ _ _ _ r) in H6; [|done].
      by apply bool_decide_eq_true in H6.
  - right; right. apply Z.leb_le in H1, H4. apply Z.ltb_lt in H3.
    apply bool_decide_eq_true in H2. by split_and!.
Qed.

Lemma dyn_invb_true {T : Type} (h : Heap T) a d : dyn_invb h a d = true -> dyn_inv h a d.
Proof.
  unfold dyn_invb. rewrite !andb_true_iff.
  intros [[[[[[H1 H2] H3] H4] H5] H6] H7]. constructor.
  - by apply wf_allocb_true.
  - by apply Z.leb_le.
  - apply negb_true_iff, Z.eqb_neq in H3. done.
  - apply Z.leb_le in H4, H5. lia.
  - intros p Hp. pose proof (forallb_seqZ _ _ _ p H6 Hp) as H6'. simpl in H6'.
    destruct (cells h !! p); [by eexists|done].
  - by apply ownedb_true.
Qed.






(** ** Removal from an array *)

Section Remove.

Context {T : Type}.
Implicit Types (h : Heap T) (d : CDynArray) (l : list T).

Lemma elements_Some h d l :
  elements h d = Some l -> 0 < m_EltCount d ->
  m_EltCount d = Z.of_nat (length l) /\
  forall k, (k < length l)%nat -> cells h !! (Data d + Z.of_nat k) = l !! k.
Proof.
  unfold elements. intros H Hc.
  pose proof (loads_length _ _ _ _ H) as Hlen. split; [lia|].
  intros k Hk. symmetry. eapply loads_lookup; eauto. lia.
Qed.

Lemma Remove_asserts h d Index :
  ~ (0 <= Index < Count d) ->
  RemoveByIndex h d Index = Fault (AssertFailed "Index out of bounds") /\
  RemoveByIndexSlide h d Index = Fault (AssertFailed "Index out of bounds").
Proof.
  unfold Count, RemoveByIndex, RemoveByIndexSlide. intros Hi.
  by destruct (Z.geb_spec Index 0), (Z.ltb_spec Index (m_EltCount d)); simpl;
    try lia.
Qed.

(** [RemoveByIndex] puts the last element in the place of the one removed. *)
Lemma RemoveByIndex_elements h d l Index :
  elements h d = Some l -> 0 <= Index < Count d ->
  exists h' d' x,
    l !! (length l - 1)%nat = Some x /\
    RemoveByIndex h d Index = Ok (h', d') /\
    Count d' = Count d - 1 /\
    elements h' d' = Some (take (length l - 1) (<[Z.to_nat Index := x]> l)).
Proof.
  unfold Count. intros Hl Hi.
  apply elements_Some in Hl as [Hn Hcells]; [|lia].
  destruct (lookup_lt_is_Some_2 l (length l - 1)%nat ltac:(lia)) as [x Hx].
  unfold RemoveByIndex, Data in *.
  destruct (Z.geb_spec Index 0), (Z.ltb_spec Index (m_EltCount d)); try lia.
  simpl. unfold load.
  replace (m_pStart (m_MemBlock d) + (m_EltCount d - 1))
    with (m_pStart (m_MemBlock d) + Z.of_nat (length l - 1)) by lia.
  rewrite Hcells, Hx by lia. simpl.
  eexists _, _, x. split_and!; [done|done|done|].
  unfold elements, Data; simpl. apply loads_eq_Some.
  - rewrite length_take, length_insert. lia.
  - intros k Hk. rewrite lookup_take_lt by lia.
    destruct (decide (k = Z.to_nat Index)) as [->|Hne].
    + rewrite list_lookup_insert_eq by lia.
      replace (m_pStart (m_MemBlock d) + Z.of_nat (Z.to_nat Index))
        with (m_pStart (m_MemBlock d) + Index) by lia.
      apply lookup_insert_eq.
    + rewrite list_lookup_insert_ne by done.
      rewrite lookup_insert_ne by lia. apply Hcells. lia.
Qed.

(** [RemoveByIndexSlide] keeps the order of the other elements. *)
Lemma RemoveByIndexSlide_elements h d l Index :
  elements h d = Some l -> 0 <= Index < Count d ->
  exists h' d',
    RemoveByIndexSlide h d Index = Ok (h', d') /\
    Count d' = Count d - 1 /\
    elements h' d' = Some (delete (Z.to_nat Index) l).
Proof.
  unfold Count. intros Hl Hi.
  apply elements_Some in Hl as [Hn Hcells]; [|lia].
  unfold RemoveByIndexSlide, mem_copy, Data in *.
  destruct (Z.geb_spec Index 0), (Z.ltb_spec Index (m_EltCount d)); try lia.
  simpl. destruct (Z.ltb_spec (m_EltCount d - (Index + 1)) 0); [lia|].
  assert (Hxs : loads (cells h) (m_pStart (m_MemBlock d) + Index + 1)
                  (Z.to_nat (m_EltCount d - (Index + 1)))
                = Some (drop (S (Z.to_nat Index)) l)).
  { apply loads_eq_Some.
    - rewrite length_drop. lia.
    - intros k Hk. rewrite lookup_drop.
      rewrite <- Hcells by lia. f_equal. lia. }
  rewrite Hxs. simpl.
  eexists _, _. split_and!; [done|done|].
  unfold elements, Data; simpl. apply loads_eq_Some.
  - rewrite length_delete by (apply lookup_lt_is_Some; lia). lia.
  - intros k Hk.
    assert (Hd : Z.of_nat (length (drop (S (Z.to_nat Index)) l))
                 = m_EltCount d - (Index + 1)) by (rewrite length_drop; lia).
    destruct (Nat.lt_ge_cases k (Z.to_nat Index)).
    + rewrite list_lookup_delete_lt by done.
      rewrite lookup_stores_outside by lia. apply Hcells. lia.
    + rewrite list_lookup_delete_ge by done.
      rewrite lookup_stores_inside by lia.
      rewrite lookup_drop. f_equal. lia.
Qed.

End Remove.

(** C7: for every array whose live elements are [10, 20, 30],
    [RemoveByIndex(0)] leaves [30, 20] with [Count() == 2] and
    [RemoveByIndexSlide(0)] leaves [20, 30] with [Count() == 2]; with an
    index outside [0, Count()) both fail their assertion. *)
Theorem Remove_from_10_20_30 (h : Heap Z) (d : CDynArray) :
  elements h d = Some [10; 20; 30] ->
  (exists h' d', RemoveByIndex h d 0 = Ok (h', d') /\
                 elements h' d' = Some [30; 20] /\ Count d' = 2) /\
  (exists h' d', RemoveByIndexSlide h d 0 = Ok (h', d') /\
                 elements h' d' = Some [20; 30] /\ Count d' = 2) /\
  (forall Index, ~ (0 <= Index < Count d) ->
     RemoveByIndex h d Index = Fault (AssertFailed "Index out of bounds") /\
     RemoveByIndexSlide h d Index = Fault (AssertFailed "Index out of bounds")).
Proof.
  intros Hl.
  assert (Hc : Count d = 3).
  { unfold Count, elements in *. apply loads_length in Hl. simpl in Hl. lia. }
  split_and!.
  - destruct (RemoveByIndex_elements h d _ 0 Hl ltac:(lia))
      as (h' & d' & x & Hx & HR & Hc' & He).
    injection Hx as <-. exists h', d'. split_and!; [done|done|lia].
  - destruct (RemoveByIndexSlide_elements h d _ 0 Hl ltac:(lia))
      as (h' & d' & HR & Hc' & He).
    exists h', d'. split_and!; [done|done|lia].
  - apply Remove_asserts.
Qed.

Lemma Remove_from_10_20_30_witness :
  let h := Ex.array3.1.1 in
  let d := Ex.array3.2 in
  (exists h' d', RemoveByIndex h d 0 = Ok (h', d') /\
                 elements h' d' = Some [30; 20] /\ Count d' = 2) /\
  (exists h' d', RemoveByIndexSlide h d 0 = Ok (h', d') /\
                 elements h' d' = Some [20; 30] /\ Count d' = 2) /\
  (forall Index, ~ (0 <= Index < Count d) ->
     RemoveByIndex h d Index = Fault (AssertFailed "Index out of bounds") /\
     RemoveByIndexSlide h d Index = Fault (AssertFailed "Index out of bounds")).
Proof.
  intros h d. apply (Remove_from_10_20_30 h d). vm_compute. reflexivity.
Defined.

(** ** CDynArraySB *)

Lemma free_array_next s p s' :
  CDynArraySB.free_array s p = Ok s' -> CDynArraySB.next s' = CDynArraySB.next s.
Proof.
  unfold CDynArraySB.free_array. destruct (p =? 0); [by intros [= <-]|].
  destruct (decide _); [by intros [= <-]|done].
Qed.

Lemma SB_ParentT_clear s x s' x' :
  CDynArraySB.ParentT_clear s x = Ok (s', x') ->
  CDynArraySB.m_BaseData x' = CDynArraySB.m_BaseData x /\
  CDynArraySB.list x' = CDynArraySB.next s /\
  CDynArraySB.next s < CDynArraySB.next s'.
Proof.
  unfold CDynArraySB.ParentT_clear. intros H. bind_ok H s1 Hfree.
  apply free_array_next in Hfree. simpl in H. injection H as <- <-. simpl. lia.
Qed.

Lemma SB_alloc s x new_len s' x' :
  CDynArraySB.alloc s x new_len = Ok (s', x') ->
  CDynArraySB.m_BaseData x' = CDynArraySB.m_BaseData x /\
  CDynArraySB.list x' = CDynArraySB.next s /\
  CDynArraySB.next s < CDynArraySB.next s'.
Proof.
  unfold CDynArraySB.alloc, CDynArraySB.ParentT_alloc. simpl. intros H.
  bind_ok H s1 Hfree. apply free_array_next in Hfree. simpl in Hfree.
  injection H as <- <-. simpl.
  split_and!; [by destruct (_ =? _)|done|lia].
Qed.

Lemma SB_step s x o s' x' :
  CDynArraySB.m_BaseData x < CDynArraySB.next s ->
  CDynArraySB.is_inline x = false ->
  CDynArraySB.step (s, x) o = Ok (s', x') ->
  CDynArraySB.m_BaseData x' = CDynArraySB.m_BaseData x /\
  CDynArraySB.m_BaseData x' < CDynArraySB.next s' /\
  CDynArraySB.is_inline x' = false.
Proof.
  unfold CDynArraySB.is_inline. intros Hbase Hin H.
  assert (Hfresh : forall s1 x1,
             CDynArraySB.m_BaseData x1 = CDynArraySB.m_BaseData x /\
             CDynArraySB.list x1 = CDynArraySB.next s /\
             CDynArraySB.next s < CDynArraySB.next s1 ->
             CDynArraySB.m_BaseData x1 = CDynArraySB.m_BaseData x /\
             CDynArraySB.m_BaseData x1 < CDynArraySB.next s1 /\
             (CDynArraySB.list x1 =? CDynArraySB.m_BaseData x1) = false).
  { intros s1 x1 (E1 & E2 & Hlt). split_and!; [done|lia|]. apply Z.eqb_neq. lia. }
  destruct o as [|new_len|new_size|]; simpl in H.
  - unfold CDynArraySB.clear in H. rewrite Hin in H.
    by apply Hfresh, SB_ParentT_clear.
  - by apply Hfresh, (SB_alloc _ _ new_len).
  - unfold CDynArraySB.set_size_zero, CDynArraySB.ParentT_set_size in H.
    bind_ok H r Hr. destruct r as [s1 x1]. injection H as <- <-. simpl.
    destruct (CDynArraySB.list_size x <? new_size).
    + by apply Hfresh, (SB_alloc _ _ new_size).
    + by injection Hr as <- <-.
  - unfold CDynArraySB.delete_all in H. rewrite Hin in H.
    by apply Hfresh, SB_ParentT_clear.
Qed.

(** C8: for an array of the small-buffer kind whose inline buffer lies
    below the addresses its allocator hands out, once [list] does not
    point to the inline buffer [m_BaseData] it does not point to it after
    any sequence of [clear], [alloc], [set_size_zero] (to a smaller or a
    larger size) and [delete_all] that returns. *)
Theorem heap_storage_is_kept (s : CDynArraySB.Store) (x : CDynArraySB.t)
    (ops : CDynArraySB.trace) (s' : CDynArraySB.Store) (x' : CDynArraySB.t) :
  CDynArraySB.m_BaseData x < CDynArraySB.next s ->
  CDynArraySB.is_inline x = false ->
  CDynArraySB.run (s, x) ops = Ok (s', x') ->
  CDynArraySB.is_inline x' = false.
Proof.
  revert s x. induction ops as [|o ops IH]; intros s x Hbase Hin H; simpl in H.
  - by injection H as <- <-.
  - bind_ok H r Hstep. destruct r as [s1 x1].
    apply SB_step in Hstep as (E & Hbase1 & Hin1); [|done..].
    by apply (IH s1 x1).
Qed.

Lemma heap_storage_is_kept_witness :
  let ops := [CDynArraySB.OpClear; CDynArraySB.OpSetSizeZero 3;
              CDynArraySB.OpSetSizeZero 500; CDynArraySB.OpAlloc 2;
              CDynArraySB.OpDeleteAll] in
  CDynArraySB.is_inline (CDynArraySB.new 10 64) = true /\
  exists s' x',
    CDynArraySB.run Ex2.small ops = Ok (s', x') /\
    CDynArraySB.is_inline x' = false.
Proof.
  intros ops. split; [reflexivity|].
  destruct (CDynArraySB.run Ex2.small ops) as [[s' x']|] eqn:E;
    [|vm_compute in E; discriminate E].
  exists s', x'. split; [reflexivity|].
  apply (heap_storage_is_kept Ex2.small.1 Ex2.small.2 ops s' x').
  - vm_compute. reflexivity.
  - vm_compute. reflexivity.
  - exact E.
Defined.

(** * Further properties *)

(** ** CChainAllocator *)

Implicit Types (a : CChainAllocator) (b : CMemBlock) (d : CDynArray).




(** X1: [Init] on an allocator that was not set up leaves every ring
    free and reports the size of the bitmap plus the buffer; on the
    allocator it returns, a second [Init] fails its assertion; with
    [RingElementCount = 0] it divides by zero. *)
Theorem Init_sets_up_once {T : Type} sizeof_T (h : Heap T) a M R h' a' :
  0 < brk h -> 0 <= M -> 0 <= R ->
  Init sizeof_T h a M R = Ok (h', a') ->
  (wf_alloc a' /\ ELT_COUNT_MAX a' = M /\ RING_ELT_COUNT a' = R /\
   m_aRingUsed a' = replicate (Z.to_nat (M ÷ R)) 0 /\
   AllocatedSize a' = M ÷ R + sizeof_T * M) /\
  (forall (h2 : Heap T) M2 R2, R2 <> 0 ->
     Init sizeof_T h2 a' M2 R2 = Fault (AssertFailed "Don't init this twice")) /\
  (forall (h2 : Heap T) a2 M2,
     Init sizeof_T h2 a2 M2 0 = Fault (Undefined "division by zero")).
Proof.
  intros Hbrk HM HR H.
  pose proof (Init_Ok _ _ _ _ _ _ _ Hbrk HM HR H) as (Hwf & EM & ER & Eb & _ & El).
  split_and!; try done.
  - unfold Init in H. bind_ok H TOTAL Hdiv. bind_ok H u Hu. bind_ok H hp Halloc.
    destruct hp as [h1 p]. injection H as <- <-.
    apply int_div_Ok in Hdiv as [_ ->]. unfold AllocatedSize. simpl. lia.
  - intros h2 M2 R2 HR2. unfold Init, int_div, dbg_assert.
    destruct (Z.eqb_spec R2 0); [done|]. simpl.
    pose proof (wf_buffer _ Hwf).
    by destruct (Z.eqb_spec (m_pElementBuffer a') 0); [lia|].
Qed.

Lemma Init_sets_up_once_witness :
  let a := Ex.pool64.2 in
  (wf_alloc a /\ ELT_COUNT_MAX a = 64 /\ RING_ELT_COUNT a = 8 /\
   m_aRingUsed a = replicate (Z.to_nat (64 ÷ 8)) 0 /\
   AllocatedSize a = 64 ÷ 8 + 4 * 64) /\
  (forall (h2 : Heap Z) M2 R2, R2 <> 0 ->
     Init 4 h2 a M2 R2 = Fault (AssertFailed "Don't init this twice")) /\
  (forall (h2 : Heap Z) a2 M2, Init 4 h2 a2 M2 0 = Fault (Undefined "division by zero")).
Proof.
  apply (Init_sets_up_once 4 Ex.heap0 CChainAllocator_new 64 8 Ex.pool64.1 Ex.pool64.2);
    vm_compute; (reflexivity || discriminate).
Defined.

(** X2: [Clear] on an allocator that is set up returns, marks every ring
    free, also the rings of blocks that are still in use, and leaves the
    buffer and the sizes as they are. *)
Theorem Clear_frees_every_ring a :
  wf_alloc a ->
  exists a', Clear a = Ok a' /\ wf_alloc a' /\ same_pool a a' /\
    m_aRingUsed a' = replicate (length (m_aRingUsed a)) 0 /\
    forall s n, 0 <= s -> s + n <= ELT_COUNT_MAX a ÷ RING_ELT_COUNT a ->
                rings_are (m_aRingUsed a') 0 s n.
Proof.
  intros Hwf. pose proof (wf_ring _ Hwf) as HR. pose proof (wf_length _ Hwf) as Hlen.
  assert (Hd : int_div (ELT_COUNT_MAX a) (RING_ELT_COUNT a)
               = Ok (Z.of_nat (length (m_aRingUsed a)))).
  { unfold int_div. destruct (Z.eqb_spec (RING_ELT_COUNT a) 0); [lia|]. by rewrite Hlen. }
  assert (Hm : memset_u8 (m_aRingUsed a) 0 0 (Z.of_nat (length (m_aRingUsed a)))
               = Ok (replicate (length (m_aRingUsed a)) 0)).
  { unfold memset_u8.
    destruct (Z.ltb_spec (Z.of_nat (length (m_aRingUsed a))) 0); [lia|].
    destruct (Z.ltb_spec (Z.of_nat (length (m_aRingUsed a)))
                (0 + Z.of_nat (length (m_aRingUsed a)))); [lia|].
    cbn [orb Z.ltb Z.compare]. f_equal.
    rewrite Z.add_0_l, !Nat2Z.id, drop_all, app_nil_r. reflexivity. }
  unfold Clear. rewrite (bind_Ok_eq _ _ _ Hd), (bind_Ok_eq _ _ _ Hm).
  eexists. split; [reflexivity|]. split_and!; try done.
  - apply wf_set_rings; [done|by rewrite length_replicate|].
    apply Forall_replicate. lia.
  - simpl. intros s n Hs Hsn r Hr. apply lookup_replicate_2. lia.
Qed.

Lemma Clear_frees_every_ring_witness :
  let a := Ex.pool64_5.1.2 in
  m_aRingUsed a = [255; 255; 255; 255; 255; 0; 0; 0] /\
  exists a', Clear a = Ok a' /\ wf_alloc a' /\ same_pool a a' /\
    m_aRingUsed a' = replicate (length (m_aRingUsed a)) 0 /\
    forall s n, 0 <= s -> s + n <= ELT_COUNT_MAX a ÷ RING_ELT_COUNT a ->
                rings_are (m_aRingUsed a') 0 s n.
Proof.
  split; [vm_compute; reflexivity|].
  apply (Clear_frees_every_ring Ex.pool64_5.1.2).
  apply wf_allocb_true. vm_compute. reflexivity.
Defined.






(** ** Blocks of a caller keep their place and their contents *)






(** ** Giving back what [Alloc] returned *)

Lemma memset_u8_nothing l s v : 0 <= s <= Z.of_nat (length l) -> memset_u8 l s v 0 = Ok l.
Proof.
  intros Hs. unfold memset_u8.
  destruct (Z.ltb_spec s 0); [lia|]. simpl.
  destruct (Z.ltb_spec (Z.of_nat (length l)) (s + 0)); [lia|].
  f_equal. rewrite Z.add_0_r. simpl. apply take_drop.
Qed.


Lemma set_rings_id a : set_rings a (m_aRingUsed a) = a.
Proof. by destruct a. Qed.





(** ** One element at a time *)



(** X7: in a pool whose rings hold two elements or more, [DeallocOne]
    of an element of the pool returns with the heap and the allocator
    unchanged: the count [1] it passes to [Dealloc] is zero rings, so a
    ring that [AllocOne] marked used is not marked free again. *)
Theorem DeallocOne_frees_no_ring {T : Type} (h : Heap T) a pPtr :
  wf_alloc a -> 2 <= RING_ELT_COUNT a ->
  m_pElementBuffer a <= pPtr < m_pElementBuffer a + ELT_COUNT_MAX a ->
  DeallocOne h a pPtr = Ok (h, a).
Proof.
  intros Hwf HR Hp. unfold DeallocOne, Dealloc. simpl.
  pose proof (wf_max _ Hwf) as HM.
  assert (Hin : (pPtr - m_pElementBuffer a >=? 0)
                && (pPtr - m_pElementBuffer a + 1 <=? ELT_COUNT_MAX a) = true).
  { apply andb_true_iff. split; [apply Z.geb_le|apply Z.leb_le]; lia. }
  rewrite Hin. unfold int_div.
  destruct (Z.eqb_spec (RING_ELT_COUNT a) 0); [lia|]. simpl.
  rewrite (Z.quot_small 1) by lia.
  rewrite memset_u8_nothing.
  - simpl. by rewrite set_rings_id.
  - rewrite (wf_length _ Hwf). split.
    + apply Z.quot_pos; lia.
    + apply Z.quot_le_mono; lia.
Qed.

Lemma DeallocOne_frees_no_ring_witness :
  let h := Ex.pool64_5.1.1 in
  let a := Ex.pool64_5.1.2 in
  m_aRingUsed a = [255; 255; 255; 255; 255; 0; 0; 0] /\
  DeallocOne h a 1000 = Ok (h, a).
Proof.
  intros h a. split; [vm_compute; reflexivity|].
  apply (DeallocOne_frees_no_ring h a 1000).
  - apply wf_allocb_true. vm_compute. reflexivity.
  - vm_compute. discriminate.
  - vm_compute. split; [discriminate|reflexivity].
Defined.



(** ** A pool with no free ring, and a pool that is free *)

Lemma read_u64_used n i :
  0 <= i -> i + 8 <= Z.of_nat n -> read_u64 (replicate n 255) i = Ok U64_MAX.
Proof.
  intros Hi Hn. unfold read_u64. rewrite length_replicate.
  destruct (Z.ltb_spec i 0); [lia|].
  destruct (Z.ltb_spec (Z.of_nat n) (i + 8)); [lia|].
  rewrite drop_replicate, take_replicate.
  replace (8 `min` (n - Z.to_nat i))%nat with 8%nat by lia. reflexivity.
Qed.

Lemma Alloc_scan_used fuel k RING Count :
  forall j, 0 <= j <= k -> k - j < Z.of_nat fuel ->
  Alloc_scan fuel (replicate (Z.to_nat (8 * k)) 255) RING (8 * k) Count
    (8 * j) (8 * j) 0 = Ok None.
Proof.
  induction fuel as [|fuel IH]; intros j Hj Hfuel; [lia|].
  simpl. destruct (Z.ltb_spec (8 * j) (8 * k)); [|done].
  rewrite read_u64_used by lia. simpl.
  replace (8 * j + 7 + 1) with (8 * (j + 1)) by lia.
  replace (8 * j + 8) with (8 * (j + 1)) by lia.
  apply IH; lia.
Qed.

Lemma Alloc_not_found {T : Type} (zeroT : T) CONF_DEBUG (h : Heap T) a Count :
  wf_alloc a -> 0 <= Count ->
  Alloc_scan (S (Z.to_nat (ELT_COUNT_MAX a ÷ RING_ELT_COUNT a))) (m_aRingUsed a)
    (RING_ELT_COUNT a) (ELT_COUNT_MAX a ÷ RING_ELT_COUNT a) Count 0 0 0 = Ok None ->
  Alloc zeroT CONF_DEBUG h a Count
  = Ok ({| cells := stores (cells h) (brk h) (replicate (Z.to_nat Count) zeroT);
           blocks := <[brk h := Count]> (blocks h);
           brk := brk h + Z.max Count 1;
           breaks := if CONF_DEBUG then S (breaks h) else breaks h |},
        a, {| m_pStart := brk h; m_Count := Count |}).
Proof.
  intros Hwf HC Hscan. unfold Alloc.
  pose proof (wf_buffer _ Hwf). pose proof (wf_ring _ Hwf).
  assert (Ha : dbg_assert (negb (m_pElementBuffer a =? 0)) "Forgot to call Init()"
               = Ok tt).
  { unfold dbg_assert. by destruct (Z.eqb_spec (m_pElementBuffer a) 0); [lia|]. }
  assert (Hd : int_div (ELT_COUNT_MAX a) (RING_ELT_COUNT a)
               = Ok (ELT_COUNT_MAX a ÷ RING_ELT_COUNT a)).
  { unfold int_div. by destruct (Z.eqb_spec (RING_ELT_COUNT a) 0); [lia|]. }
  rewrite (bind_Ok_eq _ _ _ Ha), (bind_Ok_eq _ _ _ Hd), (bind_Ok_eq _ _ _ Hscan).
  unfold mem_alloc.
  destruct (Z.ltb_spec Count 0); [lia|]. simpl.
  unfold mem_zero. simpl. destruct (Z.ltb_spec Count 0); [lia|]. simpl.
  by destruct CONF_DEBUG.
Qed.

(** X9: when every ring is used, in a pool whose number of rings is a
    multiple of eight, [Alloc] takes its block of exactly [Count]
    zeroed elements from [mem_alloc], leaves the allocator unchanged,
    and signals [dbg_break] once in a debug build and not at all in a
    release build. *)
Theorem Alloc_on_a_full_pool {T : Type} (zeroT : T) CONF_DEBUG (h : Heap T) a Count k :
  wf_alloc a -> 0 <= Count ->
  ELT_COUNT_MAX a ÷ RING_ELT_COUNT a = 8 * k ->
  Forall (fun used => used = 255) (m_aRingUsed a) ->
  Alloc zeroT CONF_DEBUG h a Count
  = Ok ({| cells := stores (cells h) (brk h) (replicate (Z.to_nat Count) zeroT);
           blocks := <[brk h := Count]> (blocks h);
           brk := brk h + Z.max Count 1;
           breaks := if CONF_DEBUG then S (breaks h) else breaks h |},
        a, {| m_pStart := brk h; m_Count := Count |}).
Proof.
  intros Hwf HC Hk Hused. apply Alloc_not_found; [done..|].
  pose proof (wf_length _ Hwf) as Hlen. rewrite Hk in *.
  assert (El : m_aRingUsed a = replicate (Z.to_nat (8 * k)) 255).
  { apply list_eq. intros i. destruct (m_aRingUsed a !! i) as [x|] eqn:Hi.
    - rewrite Forall_lookup in Hused. rewrite (Hused _ _ Hi).
      apply lookup_lt_Some in Hi. symmetry. apply lookup_replicate_2. lia.
    - apply lookup_ge_None in Hi. symmetry. apply lookup_replicate_None. lia. }
  rewrite El.
  change 0 with (8 * 0) at 1 2.
  apply Alloc_scan_used; lia.
Qed.

Lemma Alloc_on_a_full_pool_witness :
  let h := (Ex.get (Alloc 0 false Ex.pool64.1 Ex.pool64.2 64)
              (Ex.pool64, {| m_pStart := 0; m_Count := 0 |})).1.1 in
  let a := (Ex.get (Alloc 0 false Ex.pool64.1 Ex.pool64.2 64)
              (Ex.pool64, {| m_pStart := 0; m_Count := 0 |})).1.2 in
  Alloc 0 true h a 3
  = Ok ({| cells := stores (cells h) (brk h) (replicate (Z.to_nat 3) 0);
           blocks := <[brk h := 3]> (blocks h);
           brk := brk h + Z.max 3 1;
           breaks := S (breaks h) |},
        a, {| m_pStart := brk h; m_Count := 3 |}).
Proof.
  intros h a.
  apply (Alloc_on_a_full_pool 0 true h a 3 1).
  - apply wf_allocb_true. vm_compute. reflexivity.
  - lia.
  - vm_compute. reflexivity.
  - vm_compute. repeat constructor.
Defined.

Lemma read_u64_free l i :
  0 <= i -> i + 8 <= Z.of_nat (length l) -> rings_are l 0 i 8 -> read_u64 l i = Ok 0.
Proof.
  intros Hi Hlen Hfree. unfold read_u64.
  destruct (Z.ltb_spec i 0); [lia|].
  destruct (Z.ltb_spec (Z.of_nat (length l)) (i + 8)); [lia|].
  assert (E : take 8 (drop (Z.to_nat i) l) = replicate 8 0); [|by rewrite E].
  apply list_eq. intros k. destruct (decide (k < 8)%nat).
  - rewrite lookup_take_lt by lia. rewrite lookup_drop.
    rewrite lookup_replicate_2 by lia.
    specialize (Hfree (i + Z.of_nat k) ltac:(lia)).
    by replace (Z.to_nat (i + Z.of_nat k)) with (Z.to_nat i + k)%nat in Hfree by lia.
  - rewrite lookup_take_ge by lia. symmetry. apply lookup_replicate_None. lia.
Qed.

Lemma Alloc_found {T : Type} (zeroT : T) CONF_DEBUG (h : Heap T) a Count s c :
  wf_alloc a -> 0 <= c ->
  Alloc_scan (S (Z.to_nat (ELT_COUNT_MAX a ÷ RING_ELT_COUNT a))) (m_aRingUsed a)
    (RING_ELT_COUNT a) (ELT_COUNT_MAX a ÷ RING_ELT_COUNT a) Count 0 0 0
  = Ok (Some (s, c)) ->
  Alloc zeroT CONF_DEBUG h a Count
  = Ok (set_cells h (stores (cells h) (m_pElementBuffer a + s * RING_ELT_COUNT a)
                       (replicate (Z.to_nat (c * RING_ELT_COUNT a)) zeroT)),
        set_rings a (take (Z.to_nat s) (m_aRingUsed a) ++ replicate (Z.to_nat c) 255
                     ++ drop (Z.to_nat (s + c)) (m_aRingUsed a)),
        {| m_pStart := m_pElementBuffer a + s * RING_ELT_COUNT a;
           m_Count := c * RING_ELT_COUNT a |}).
Proof.
  intros Hwf Hc Hscan. unfold Alloc.
  pose proof (wf_buffer _ Hwf). pose proof (wf_ring _ Hwf) as HR.
  pose proof (wf_max _ Hwf) as HM. pose proof (quot_mul_le _ _ HM HR).
  assert (Ha : dbg_assert (negb (m_pElementBuffer a =? 0)) "Forgot to call Init()"
               = Ok tt).
  { unfold dbg_assert. by destruct (Z.eqb_spec (m_pElementBuffer a) 0); [lia|]. }
  assert (Hd : int_div (ELT_COUNT_MAX a) (RING_ELT_COUNT a)
               = Ok (ELT_COUNT_MAX a ÷ RING_ELT_COUNT a)).
  { unfold int_div. by destruct (Z.eqb_spec (RING_ELT_COUNT a) 0); [lia|]. }
  rewrite (bind_Ok_eq _ _ _ Ha), (bind_Ok_eq _ _ _ Hd), (bind_Ok_eq _ _ _ Hscan).
  eapply Alloc_scan_sound in Hscan as (Hs & Hsc & _ & _);
    [|apply Hwf|lia|reflexivity|intros r ?; lia].
  rewrite (wf_length _ Hwf) in Hsc.
  assert (Hm : memset_u8 (m_aRingUsed a) s 255 c
               = Ok (take (Z.to_nat s) (m_aRingUsed a) ++ replicate (Z.to_nat c) 255
                     ++ drop (Z.to_nat (s + c)) (m_aRingUsed a))).
  { unfold memset_u8. destruct (Z.ltb_spec s 0); [lia|].
    destruct (Z.ltb_spec c 0); [lia|]. simpl.
    rewrite (wf_length _ Hwf). by destruct (Z.ltb_spec (ELT_COUNT_MAX a ÷ RING_ELT_COUNT a) (s + c)); [lia|]. }
  rewrite (bind_Ok_eq _ _ _ Hm). simpl.
  unfold mem_zero. destruct (Z.ltb_spec (c * RING_ELT_COUNT a) 0); [nia|]. simpl.
  unfold dbg_assert.
  by destruct (Z.leb_spec (s * RING_ELT_COUNT a + c * RING_ELT_COUNT a) (ELT_COUNT_MAX a));
    [|nia].
Qed.

(** X10: when the first eight rings are free, [Alloc(Count)] with
    [1 <= Count <= 8] returns the block at the start of the buffer made
    of the first [Count] rings, whatever the number of elements a ring
    holds: it marks these [Count] rings used and zeroes their
    [Count * RING_ELT_COUNT] elements. *)
Theorem Alloc_takes_Count_rings {T : Type} (zeroT : T) CONF_DEBUG (h : Heap T) a Count :
  wf_alloc a -> 8 <= ELT_COUNT_MAX a ÷ RING_ELT_COUNT a ->
  rings_are (m_aRingUsed a) 0 0 8 -> 1 <= Count <= 8 ->
  Alloc zeroT CONF_DEBUG h a Count
  = Ok (set_cells h (stores (cells h) (m_pElementBuffer a)
                       (replicate (Z.to_nat (Count * RING_ELT_COUNT a)) zeroT)),
        set_rings a (replicate (Z.to_nat Count) 255
                     ++ drop (Z.to_nat Count) (m_aRingUsed a)),
        {| m_pStart := m_pElementBuffer a; m_Count := Count * RING_ELT_COUNT a |}).
Proof.
  intros Hwf H8 Hfree HC. pose proof (wf_ring _ Hwf) as HR.
  rewrite (Alloc_found zeroT _ _ _ _ 0 Count Hwf ltac:(lia)).
  - simpl. by rewrite Z.add_0_r.
  - simpl. destruct (Z.ltb_spec 0 (ELT_COUNT_MAX a ÷ RING_ELT_COUNT a)); [|lia].
    rewrite read_u64_free by (rewrite ?(wf_length _ Hwf); done || lia). simpl.
    rewrite Z.min_l by lia. rewrite !Z.add_0_l.
    by destruct (Z.geb_spec (Count * RING_ELT_COUNT a) Count); [|nia].
Qed.

Lemma Alloc_takes_Count_rings_witness :
  let h := Ex.pool64.1 in
  let a := Ex.pool64.2 in
  Alloc 0 false h a 5
  = Ok (set_cells h (stores (cells h) (m_pElementBuffer a)
                       (replicate (Z.to_nat (5 * RING_ELT_COUNT a)) 0)),
        set_rings a (replicate (Z.to_nat 5) 255 ++ drop (Z.to_nat 5) (m_aRingUsed a)),
        {| m_pStart := m_pElementBuffer a; m_Count := 5 * RING_ELT_COUNT a |}).
Proof.
  intros h a. apply (Alloc_takes_Count_rings 0 false h a 5).
  - apply wf_allocb_true. vm_compute. reflexivity.
  - vm_compute. discriminate.
  - intros r Hr. assert (r = 0 \/ r = 1 \/ r = 2 \/ r = 3 \/ r = 4 \/ r = 5 \/ r = 6 \/ r = 7)
      as Er by lia.
    destruct Er as [->|[->|[->|[->|[->|[->|[->| ->]]]]]]]; reflexivity.
  - lia.
Defined.

(** ** What every run keeps *)






(** X12: [Deinit] after [Init] releases the allocation that holds the
    bitmap and the buffer, elements included. It does not reset the
    pointer: a second [Deinit] passes the same pointer to [mem_free]
    again. *)
Theorem Deinit_releases_the_pool {T : Type} sizeof_T (h : Heap T) a M R h' a' :
  0 < brk h -> 0 <= M -> 0 <= R ->
  Init sizeof_T h a M R = Ok (h', a') ->
  exists h'', Deinit h' a' = Ok h'' /\
    blocks h'' !! m_pElementBuffer a' = None /\
    (forall p, m_pElementBuffer a' <= p < m_pElementBuffer a' + ELT_COUNT_MAX a' ->
               cells h'' !! p = None) /\
    Deinit h'' a'
    = Fault (Undefined "mem_free of a pointer that mem_alloc did not return").
Proof.
  intros Hbrk HM HR H. unfold Init in H.
  bind_ok H TOTAL Hdiv. bind_ok H u Hu. bind_ok H hp Halloc.
  destruct hp as [h1 p]. injection H as <- <-.
  unfold mem_alloc in Halloc. destruct (Z.ltb_spec M 0); [lia|].
  injection Halloc as <- <-. unfold Deinit, mem_free. simpl.
  destruct (Z.eqb_spec (brk h) 0); [lia|].
  rewrite lookup_insert_eq. eexists. split; [reflexivity|]. simpl.
  rewrite lookup_delete_eq. split_and!; [done| |done].
  intros q Hq. apply lookup_free_cells_inside. lia.
Qed.

Lemma Deinit_releases_the_pool_witness :
  let h' := Ex.pool64.1 in
  let a' := Ex.pool64.2 in
  exists h'', Deinit h' a' = Ok h'' /\
    blocks h'' !! m_pElementBuffer a' = None /\
    (forall p, m_pElementBuffer a' <= p < m_pElementBuffer a' + ELT_COUNT_MAX a' ->
               cells h'' !! p = None) /\
    Deinit h'' a'
    = Fault (Undefined "mem_free of a pointer that mem_alloc did not return").
Proof.
  intros h' a'.
  apply (Deinit_releases_the_pool 4 Ex.heap0 CChainAllocator_new 64 8 h' a');
    try (vm_compute; reflexivity); vm_compute; discriminate.
Defined.

(** ** Where [Alloc] looks *)



(** * Further properties of CDynArray *)


(** X14: the array that [NewTileArray] or [NewQuadArray] returns is
    empty, has capacity [0] and a null block, whatever the storage of
    the object held before the constructor ran, and is bound to the
    dispenser; it is a valid array of that dispenser, and a second
    [Init] on it fails its assertion. *)
Theorem NewTileArray_is_empty {T : Type} (h : Heap T) a
    (garbage : CMemBlock) (garbage_count pDispenser : Z) :
  wf_alloc a -> m_pElementBuffer a + ELT_COUNT_MAX a <= brk h -> pDispenser <> 0 ->
  exists d,
    NewTileArray garbage garbage_count pDispenser = Ok d /\
    NewQuadArray garbage garbage_count pDispenser = Ok d /\
    Count d = 0 /\ Capacity d = 0 /\ Data d = 0 /\ m_pAllocator d = pDispenser /\
    elements h d = Some [] /\ dyn_inv h a d /\
    forall q, DynArray_Init d q = Fault (AssertFailed "Init already called").
Proof.
  intros Hwf Hbrk Hp. eexists. split_and!; try reflexivity.
  - constructor; simpl; try done.
    + unfold Capacity, Data. simpl. intros p ?. lia.
    + by left.
  - intros q. unfold DynArray_Init, dbg_assert. simpl.
    by destruct (Z.eqb_spec pDispenser 0).
Qed.

Lemma NewTileArray_is_empty_witness :
  exists d,
    NewTileArray {| m_pStart := 77; m_Count := -3 |} 12 1 = Ok d /\
    NewQuadArray {| m_pStart := 77; m_Count := -3 |} 12 1 = Ok d /\
    Count d = 0 /\ Capacity d = 0 /\ Data d = 0 /\ m_pAllocator d = 1 /\
    elements Ex.pool64.1 d = Some [] /\ dyn_inv Ex.pool64.1 Ex.pool64.2 d /\
    forall q, DynArray_Init d q = Fault (AssertFailed "Init already called").
Proof.
  apply (NewTileArray_is_empty Ex.pool64.1 Ex.pool64.2 {| m_pStart := 77; m_Count := -3 |} 12 1).
  - apply wf_allocb_true. vm_compute. reflexivity.
  - vm_compute. discriminate.
  - discriminate.
Defined.








(** X18: the reference that [Add] and [AddEmpty] return is
    [Data()-Count]: for a count of one or more it lies below the first
    element of the array, outside its block, and is not the address
    [Data()+old Count()] at which the first added element is stored. *)
Theorem Add_returns_address_below_the_block {T : Type} (zeroT : T) CONF_DEBUG
    (h : Heap T) a d aElements n h' a' d' r :
  dyn_inv h a d -> 0 < n ->
  Add zeroT CONF_DEBUG h a d aElements n = Ok (h', a', d', r)
  \/ AddEmpty zeroT CONF_DEBUG h a d n = Ok (h', a', d', r) ->
  r = Data d' - n /\ r < Data d' /\
  ~ (Data d' <= r < Data d' + Capacity d') /\
  r <> Data d' + Count d.
Proof.
  intros Hinv Hn H. pose proof (di_count _ _ _ Hinv) as Hcount.
  assert (r = Data d' - n) as ->; [|unfold Count; lia].
  destruct H as [H|H].
  - unfold Add in H. bind_ok H r1 HR. destruct r1 as [[h1 a1] d1].
    bind_ok H h2 Hcopy. by injection H as <- <- <- <-.
  - unfold AddEmpty in H. bind_ok H u Hu. bind_ok H r1 HR. destruct r1 as [[h1 a1] d1].
    bind_ok H h2 Hzero. by injection H as <- <- <- <-.
Qed.

Lemma Add_returns_address_below_the_block_witness :
  let h := Ex.array3.1.1 in
  let a := Ex.array3.1.2 in
  let d := Ex.array3.2 in
  let r := Ex.get (Add1 0 false h a d 40) (Ex.array3, 0) in
  r.2 = Data r.1.2 - 1 /\ r.2 < Data r.1.2 /\
  ~ (Data r.1.2 <= r.2 < Data r.1.2 + Capacity r.1.2) /\
  r.2 <> Data r.1.2 + Count d.
Proof.
  intros h a d r.
  apply (Add_returns_address_below_the_block 0 false h a d [40] 1
           r.1.1.1 r.1.1.2 r.1.2 r.2).
  - apply dyn_invb_true. vm_compute. reflexivity.
  - lia.
  - left. vm_compute. reflexivity.
Defined.

(** X19: [AddEmpty(Count)] is [Add] of [Count] zero elements when
    [Count] is positive, and fails its assertion otherwise. *)
Theorem AddEmpty_is_Add_of_zeros {T : Type} (zeroT : T) CONF_DEBUG (h : Heap T) a d n :
  AddEmpty zeroT CONF_DEBUG h a d n
  = if n >? 0 then Add zeroT CONF_DEBUG h a d (replicate (Z.to_nat n) zeroT) n
    else Fault (AssertFailed "Add 0 or more").
Proof.
  unfold AddEmpty, Add, dbg_assert. destruct (Z.gtb_spec n 0) as [Hn|Hn]; [|reflexivity].
  simpl.
  match goal with
  | |- ?X ≫= _ = ?X ≫= _ => destruct X as [[[h1 a1] d1]|f]; [|reflexivity]
  end.
  simpl. unfold mem_zero, mem_copy_from. rewrite length_replicate.
  destruct (Z.ltb_spec n 0); [lia|].
  destruct (Z.ltb_spec (Z.of_nat (Z.to_nat n)) n); [lia|].
  by rewrite take_replicate, Nat.min_id.
Qed.



Lemma swap_remove_Permutation {A : Type} (l0 : list A) (x : A) (i : nat) :
  (i <= length l0)%nat ->
  take (length l0) (<[i := x]> (l0 ++ [x])) ≡ₚ delete i (l0 ++ [x]).
Proof.
  intros Hi. destruct (decide (i < length l0)%nat) as [Hlt|Hge].
  - rewrite insert_app_l by done.
    rewrite take_app_length' by (by rewrite length_insert).
    rewrite insert_take_drop by done.
    rewrite delete_take_drop, take_app_le, drop_app_le by lia.
    f_equiv. apply Permutation_cons_append.
  - assert (i = length l0) as -> by lia.
    rewrite list_insert_id by apply list_lookup_middle, eq_refl.
    by rewrite take_app_length, delete_middle, app_nil_r.
Qed.

Lemma last_split {A : Type} (l : list A) (x : A) :
  l !! (length l - 1)%nat = Some x -> exists l0, l = l0 ++ [x].
Proof.
  intros Hx. exists (take (length l - 1) l).
  pose proof (lookup_lt_Some _ _ _ Hx) as Hlt.
  rewrite <- (take_drop (length l - 1) l) at 1. f_equal.
  apply list_eq. intros k. rewrite lookup_drop. destruct k as [|k]; simpl.
  - by rewrite Nat.add_0_r.
  - apply lookup_ge_None_2. lia.
Qed.

(** X21: [RemoveByIndex] with an index in range removes exactly the
    element at that index: the elements left are those of the array
    with that one deleted, up to order; every other element but the
    last stays at its index, the last one takes the place of the one
    removed, and the block and the binding of the array are unchanged.
    With an index out of range it fails its assertion. *)
Theorem RemoveByIndex_removes_one {T : Type} (h : Heap T) d (l : list T) Index :
  elements h d = Some l ->
  (0 <= Index < Count d ->
   exists h' d' l',
     RemoveByIndex h d Index = Ok (h', d') /\
     elements h' d' = Some l' /\
     l' ≡ₚ delete (Z.to_nat Index) l /\
     (forall k, k <> Z.to_nat Index -> (k < length l - 1)%nat -> l' !! k = l !! k) /\
     (Index < Count d - 1 -> l' !! Z.to_nat Index = l !! (length l - 1)%nat) /\
     Count d' = Count d - 1 /\
     m_MemBlock d' = m_MemBlock d /\ m_pAllocator d' = m_pAllocator d) /\
  (~ (0 <= Index < Count d) ->
   RemoveByIndex h d Index = Fault (AssertFailed "Index out of bounds")).
Proof.
  intros Hl. split; [|by intros Hi; apply Remove_asserts].
  intros Hi.
  destruct (RemoveByIndex_elements h d l Index Hl Hi) as (h' & d' & x & Hx & HR & Hc & Hl').
  pose proof (elements_Some h d l Hl ltac:(unfold Count in Hi; lia)) as [Hn _].
  unfold Count in *.
  exists h', d', (take (length l - 1) (<[Z.to_nat Index := x]> l)).
  split_and!; [done|done| | | |done| |].
  - destruct (last_split l x Hx) as [l0 ->].
    rewrite length_app in *. simpl in *.
    replace (length l0 + 1 - 1)%nat with (length l0) by lia.
    apply swap_remove_Permutation. lia.
  - intros k Hne Hk. rewrite lookup_take_lt by lia.
    by rewrite list_lookup_insert_ne.
  - intros Hlt. rewrite lookup_take_lt by lia.
    rewrite list_lookup_insert_eq by lia. done.
  - unfold RemoveByIndex in HR. bind_ok HR u Hu. bind_ok HR y Hy.
    by injection HR as _ <-.
  - unfold RemoveByIndex in HR. bind_ok HR u Hu. bind_ok HR y Hy.
    by injection HR as _ <-.
Qed.

Lemma RemoveByIndex_removes_one_witness :
  let h := Ex.array3.1.1 in
  let d := Ex.array3.2 in
  (0 <= 0 < Count d ->
   exists h' d' l',
     RemoveByIndex h d 0 = Ok (h', d') /\
     elements h' d' = Some l' /\
     l' ≡ₚ delete (Z.to_nat 0) [10; 20; 30] /\
     (forall k, k <> Z.to_nat 0 -> (k < length [10; 20; 30] - 1)%nat ->
                l' !! k = [10; 20; 30] !! k) /\
     (0 < Count d - 1 -> l' !! Z.to_nat 0 = [10; 20; 30] !! (length [10; 20; 30] - 1)%nat) /\
     Count d' = Count d - 1 /\
     m_MemBlock d' = m_MemBlock d /\ m_pAllocator d' = m_pAllocator d) /\
  (~ (0 <= 0 < Count d) ->
   RemoveByIndex h d 0 = Fault (AssertFailed "Index out of bounds")).
Proof.
  intros h d. apply (RemoveByIndex_removes_one h d [10; 20; 30] 0).
  vm_compute. reflexivity.
Defined.

(** X22: [RemoveByIndexSlide] with an index in range leaves the
    elements of the array with the one at that index deleted, in their
    order, and does not change the block or the binding of the array.
    With an index out of range it fails its assertion. *)
Theorem RemoveByIndexSlide_keeps_order {T : Type} (h : Heap T) d (l : list T) Index :
  elements h d = Some l ->
  (0 <= Index < Count d ->
   exists h' d',
     RemoveByIndexSlide h d Index = Ok (h', d') /\
     elements h' d' = Some (delete (Z.to_nat Index) l) /\
     Count d' = Count d - 1 /\
     m_MemBlock d' = m_MemBlock d /\ m_pAllocator d' = m_pAllocator d) /\
  (~ (0 <= Index < Count d) ->
   RemoveByIndexSlide h d Index = Fault (AssertFailed "Index out of bounds")).
Proof.
  intros Hl. split; [|by intros Hi; apply Remove_asserts].
  intros Hi.
  destruct (RemoveByIndexSlide_elements h d l Index Hl Hi) as (h' & d' & HR & Hc & Hl').
  exists h', d'. split_and!; [done..| |].
  - unfold RemoveByIndexSlide in HR. bind_ok HR u Hu. bind_ok HR y Hy.
    by injection HR as _ <-.
  - unfold RemoveByIndexSlide in HR. bind_ok HR u Hu. bind_ok HR y Hy.
    by injection HR as _ <-.
Qed.

Lemma RemoveByIndexSlide_keeps_order_witness :
  let h := Ex.array3.1.1 in
  let d := Ex.array3.2 in
  (0 <= 1 < Count d ->
   exists h' d',
     RemoveByIndexSlide h d 1 = Ok (h', d') /\
     elements h' d' = Some (delete (Z.to_nat 1) [10; 20; 30]) /\
     Count d' = Count d - 1 /\
     m_MemBlock d' = m_MemBlock d /\ m_pAllocator d' = m_pAllocator d) /\
  (~ (0 <= 1 < Count d) ->
   RemoveByIndexSlide h d 1 = Fault (AssertFailed "Index out of bounds")).
Proof.
  intros h d. apply (RemoveByIndexSlide_keeps_order h d [10; 20; 30] 1).
  vm_compute. reflexivity.
Defined.

(** X23: [operator[]] with an index in range returns the element of the
    array at that index, and with any other index it fails its
    assertion; it reads nothing between [Count()] and [Capacity()]. *)
Theorem index_reads_the_elements {T : Type} (h : Heap T) d (l : list T) Index :
  elements h d = Some l ->
  at_index h d Index
  = if (0 <=? Index) && (Index <? Count d)
    then match l !! Z.to_nat Index with
         | Some x => Ok x
         | None => Fault (Undefined "read of storage that holds no value")
         end
    else Fault (AssertFailed "Index out of bounds").
Proof.
  intros Hl. unfold at_index, dbg_assert, Count.
  rewrite (Z.geb_leb Index 0).
  destruct (Z.leb_spec 0 Index), (Z.ltb_spec Index (m_EltCount d)); simpl; try done.
  apply elements_Some in Hl as [Hn Hcells]; [|lia].
  unfold load. specialize (Hcells (Z.to_nat Index) ltac:(lia)).
  rewrite Z2Nat.id in Hcells by lia. unfold Data in Hcells. by rewrite Hcells.
Qed.

Lemma index_reads_the_elements_witness :
  let h := Ex.array3.1.1 in
  let d := Ex.array3.2 in
  Capacity d = 4 /\
  forall Index,
  at_index h d Index
  = if (0 <=? Index) && (Index <? Count d)
    then match [10; 20; 30] !! Z.to_nat Index with
         | Some x => Ok x
         | None => Fault (Undefined "read of storage that holds no value")
         end
    else Fault (AssertFailed "Index out of bounds").
Proof.
  intros h d. split; [vm_compute; reflexivity|]. intros Index.
  apply (index_reads_the_elements h d [10; 20; 30] Index).
  vm_compute. reflexivity.
Defined.

(** * Further properties of CDynArraySB *)

Lemma SB_step_inline s x o :
  CDynArraySB.list x = CDynArraySB.m_BaseData x ->
  CDynArraySB.list_size x = CDynArraySB.BASE_COUNT x ->
  fits_inline x o = true ->
  exists x', CDynArraySB.step (s, x) o = Ok (s, x') /\
    CDynArraySB.list x' = CDynArraySB.list x /\
    CDynArraySB.list_size x' = CDynArraySB.list_size x /\
    CDynArraySB.m_BaseData x' = CDynArraySB.m_BaseData x /\
    CDynArraySB.BASE_COUNT x' = CDynArraySB.BASE_COUNT x /\
    CDynArraySB.num_elements x'
    = match o with CDynArraySB.OpSetSizeZero n => n | _ => 0 end.
Proof.
  intros Hl Hs Hfit. destruct o as [|n|n|]; simpl in *; try discriminate.
  - unfold CDynArraySB.clear. rewrite Hl, Z.eqb_refl. eexists. split; [done|].
    simpl. by rewrite Hs.
  - unfold CDynArraySB.set_size_zero, CDynArraySB.ParentT_set_size.
    apply Z.leb_le in Hfit.
    destruct (Z.ltb_spec (CDynArraySB.list_size x) n); [lia|]. simpl.
    eexists. split; [done|]. done.
  - unfold CDynArraySB.delete_all, CDynArraySB.clear. rewrite Hl, Z.eqb_refl.
    eexists. split; [done|]. simpl. by rewrite Hs.
Qed.

(** X24: as long as no call asks for more than the inline buffer holds,
    an array of the small-buffer kind stays in its inline buffer: every
    sequence of [clear], [delete_all] and [set_size_zero(n)] with
    [n <= BASE_COUNT] on a new array returns, leaves [list] at
    [m_BaseData] and the capacity at [BASE_COUNT], and never calls the
    allocator. *)
Theorem inline_storage_is_kept (s : CDynArraySB.Store) (pBaseData BaseCount : Z)
    (ops : CDynArraySB.trace) :
  Forall (fun o => fits_inline (CDynArraySB.new pBaseData BaseCount) o = true) ops ->
  exists x', CDynArraySB.run (s, CDynArraySB.new pBaseData BaseCount) ops = Ok (s, x') /\
    CDynArraySB.is_inline x' = true /\
    CDynArraySB.list x' = pBaseData /\
    CDynArraySB.capacity x' = BaseCount /\
    CDynArraySB.num_elements x'
    = match last ops with
      | Some (CDynArraySB.OpSetSizeZero n) => n
      | _ => 0
      end.
Proof.
  intros Hops.
  assert (Hgen : forall x,
    CDynArraySB.list x = pBaseData -> CDynArraySB.m_BaseData x = pBaseData ->
    CDynArraySB.list_size x = BaseCount -> CDynArraySB.BASE_COUNT x = BaseCount ->
    exists x', CDynArraySB.run (s, x) ops = Ok (s, x') /\
      CDynArraySB.list x' = pBaseData /\ CDynArraySB.m_BaseData x' = pBaseData /\
      CDynArraySB.list_size x' = BaseCount /\
      CDynArraySB.num_elements x'
      = match last ops with
        | Some (CDynArraySB.OpSetSizeZero n) => n
        | Some _ => 0
        | None => CDynArraySB.num_elements x
        end).
  { induction Hops as [|o ops Ho Hops IH]; intros x Hl Hb Hs Hc.
    - exists x. by split_and!.
    - destruct (SB_step_inline s x o) as (x1 & Hstep & El & Es & Eb & Ec & En).
      + congruence.
      + congruence.
      + destruct o; simpl in *; try done. by rewrite Hc.
      + destruct (IH x1) as (x' & Hrun & ? & ? & ? & En'); [congruence..|].
        exists x'. split_and!; try done.
        * change (CDynArraySB.run (s, x) (o :: ops))
            with (CDynArraySB.step (s, x) o ≫= fun sx => CDynArraySB.run sx ops).
          by rewrite Hstep.
        * rewrite En'. destruct ops as [|o' ops'].
          -- simpl. rewrite En. by destruct o.
          -- rewrite last_cons_cons.
             destruct (last (o' :: ops')) as [[]|] eqn:E; try done.
             by apply last_None in E. }
  destruct (Hgen (CDynArraySB.new pBaseData BaseCount)) as (x' & Hrun & Hl & Hb & Hs & En);
    [done..|].
  exists x'. split_and!; try done.
  unfold CDynArraySB.is_inline. rewrite Hl, Hb. apply Z.eqb_refl.
Qed.

Lemma inline_storage_is_kept_witness :
  let ops := [CDynArraySB.OpSetSizeZero 10; CDynArraySB.OpClear;
              CDynArraySB.OpSetSizeZero 64; CDynArraySB.OpDeleteAll;
              CDynArraySB.OpSetSizeZero 3] in
  exists x', CDynArraySB.run (Ex2.store0, CDynArraySB.new 10 64) ops = Ok (Ex2.store0, x') /\
    CDynArraySB.is_inline x' = true /\
    CDynArraySB.list x' = 10 /\
    CDynArraySB.capacity x' = 64 /\
    CDynArraySB.num_elements x'
    = match last ops with
      | Some (CDynArraySB.OpSetSizeZero n) => n
      | _ => 0
      end.
Proof.
  intros ops. apply (inline_storage_is_kept Ex2.store0 10 64 ops).
  repeat constructor.
Defined.

(** * CHistoryEntry *)

Lemma c_str_length_le p : (length (c_str p) <= length p)%nat.
Proof. induction p as [|c p IH]; simpl; [lia|]. destruct (c =? 0); simpl; lia. Qed.

Lemma c_str_nonzero p : Forall (fun c => c <> 0) (c_str p).
Proof.
  induction p as [|c p IH]; simpl; [constructor|].
  destruct (Z.eqb_spec c 0); by constructor.
Qed.

Lemma take_c_str p n : (n <= length (c_str p))%nat -> take n p = take n (c_str p).
Proof.
  revert n. induction p as [|c p IH]; intros n Hn; simpl in *; [done|].
  destruct (c =? 0); simpl in *.
  - by assert (n = 0%nat) as -> by lia.
  - destruct n as [|n]; simpl; [done|]. f_equal. apply IH. lia.
Qed.

Lemma c_str_app_zero l r : Forall (fun c => c <> 0) l -> c_str (l ++ 0 :: r) = l.
Proof.
  induction 1 as [|c l Hc _ IH]; simpl; [done|].
  destruct (Z.eqb_spec c 0); [done|]. by rewrite IH.
Qed.

Lemma str_copy_Ok (dst pStr : list Z) (len : Z) :
  length dst = 64%nat -> len = Z.of_nat (length (c_str pStr)) ->
  exists l,
    (l1 ← memmove_u8 dst pStr (Z.min (64 - 1) len); write_u8 l1 (Z.min (64 - 1) len) 0)
    = Ok l /\
    c_str l = take 63 (c_str pStr) /\
    length l = 64%nat /\
    forall k, (Z.to_nat (Z.min (64 - 1) len) < k)%nat -> l !! k = dst !! k.
Proof.
  intros Hdst ->. pose proof (c_str_length_le pStr) as Hle.
  set (Len := Z.min (64 - 1) (Z.of_nat (length (c_str pStr)))).
  assert (HLen : 0 <= Len <= 63 /\ Len <= Z.of_nat (length (c_str pStr))) by lia.
  unfold memmove_u8. destruct (Z.ltb_spec Len 0); [lia|].
  destruct (Z.ltb_spec (Z.of_nat (length pStr)) Len); [lia|].
  destruct (Z.ltb_spec (Z.of_nat (length dst)) Len); [lia|]. simpl.
  assert (Htake : length (take (Z.to_nat Len) pStr) = Z.to_nat Len)
    by (rewrite length_take; lia).
  unfold write_u8. rewrite length_app, length_drop, Htake.
  destruct (Z.ltb_spec Len 0); [lia|].
  destruct (Z.leb_spec (Z.of_nat (Z.to_nat Len + (length dst - Z.to_nat Len))) Len); [lia|].
  simpl. eexists. split; [reflexivity|].
  rewrite insert_app_r_alt by lia. rewrite Htake, Nat.sub_diag.
  destruct (drop (Z.to_nat Len) dst) as [|y rest] eqn:Hdrop.
  { apply (f_equal length) in Hdrop. rewrite length_drop in Hdrop. simpl in Hdrop. lia. }
  simpl. split_and!.
  - rewrite take_c_str by lia. rewrite c_str_app_zero.
    + unfold Len. destruct (Z.le_gt_cases 63 (Z.of_nat (length (c_str pStr)))).
      * by rewrite Z.min_l by lia.
      * rewrite Z.min_r, Nat2Z.id by lia. by rewrite !take_ge by lia.
    + apply Forall_take, c_str_nonzero.
  - apply (f_equal length) in Hdrop. rewrite length_drop in Hdrop. simpl in Hdrop.
    rewrite length_app, Htake. simpl. lia.
  - intros k Hk. rewrite lookup_app_r by lia. rewrite Htake.
    destruct (k - Z.to_nat Len)%nat as [|j] eqn:Hj; [lia|]. simpl.
    assert (rest !! j = drop (Z.to_nat Len) dst !! S j) as -> by by rewrite Hdrop.
    rewrite lookup_drop. f_equal. lia.
Qed.

(** X25: [SetAction] stores the string it is given cut to at most 63
    characters and terminated by a zero byte: for every source string,
    however long, it returns, the action string reads as the first 63
    characters of the source, the array keeps its 64 bytes and its
    bytes after the terminator, and the description and the three
    pointers are unchanged. *)
Theorem SetAction_stores_the_truncated_string (str_length : list Z -> Z)
    (e : CHistoryEntry) (pStr : list Z) :
  length (m_aActionStr e) = 64%nat ->
  str_length pStr = Z.of_nat (length (c_str pStr)) ->
  exists e', SetAction str_length e pStr = Ok e' /\
    c_str (m_aActionStr e') = take 63 (c_str pStr) /\
    length (m_aActionStr e') = 64%nat /\
    (forall k, (Z.to_nat (Z.min 63 (str_length pStr)) < k)%nat ->
               m_aActionStr e' !! k = m_aActionStr e !! k) /\
    m_aDescStr e' = m_aDescStr e /\
    m_pPrev e' = m_pPrev e /\ m_pNext e' = m_pNext e /\ m_pSnap e' = m_pSnap e.
Proof.
  intros Hlen Hstr.
  destruct (str_copy_Ok (m_aActionStr e) pStr (str_length pStr) Hlen Hstr)
    as (l & Hl & Hc & Hn & Hrest).
  unfold SetAction. cbv zeta. apply bind_Ok in Hl as (l1 & Hm & Hw).
  rewrite (bind_Ok_eq _ _ _ Hm), (bind_Ok_eq _ _ _ Hw).
  eexists. split; [reflexivity|]. simpl. by split_and!.
Qed.

Lemma SetAction_stores_the_truncated_string_witness :
  exists e', SetAction Ex3.strlen Ex3.entry0 Ex3.undo = Ok e' /\
    c_str (m_aActionStr e') = take 63 (c_str Ex3.undo) /\
    length (m_aActionStr e') = 64%nat /\
    (forall k, (Z.to_nat (Z.min 63 (Ex3.strlen Ex3.undo)) < k)%nat ->
               m_aActionStr e' !! k = m_aActionStr Ex3.entry0 !! k) /\
    m_aDescStr e' = m_aDescStr Ex3.entry0 /\
    m_pPrev e' = m_pPrev Ex3.entry0 /\ m_pNext e' = m_pNext Ex3.entry0 /\
    m_pSnap e' = m_pSnap Ex3.entry0.
Proof.
  apply (SetAction_stores_the_truncated_string Ex3.strlen Ex3.entry0 Ex3.undo).
  - reflexivity.
  - reflexivity.
Defined.

(** X26: [SetDescription] does for the description what [SetAction]
    does for the action: the description reads as the first 63
    characters of the source, terminated inside its 64 bytes, and the
    action string and the three pointers are unchanged. *)
Theorem SetDescription_stores_the_truncated_string (str_length : list Z -> Z)
    (e : CHistoryEntry) (pStr : list Z) :
  length (m_aDescStr e) = 64%nat ->
  str_length pStr = Z.of_nat (length (c_str pStr)) ->
  exists e', SetDescription str_length e pStr = Ok e' /\
    c_str (m_aDescStr e') = take 63 (c_str pStr) /\
    length (m_aDescStr e') = 64%nat /\
    (forall k, (Z.to_nat (Z.min 63 (str_length pStr)) < k)%nat ->
               m_aDescStr e' !! k = m_aDescStr e !! k) /\
    m_aActionStr e' = m_aActionStr e /\
    m_pPrev e' = m_pPrev e /\ m_pNext e' = m_pNext e /\ m_pSnap e' = m_pSnap e.
Proof.
  intros Hlen Hstr.
  destruct (str_copy_Ok (m_aDescStr e) pStr (str_length pStr) Hlen Hstr)
    as (l & Hl & Hc & Hn & Hrest).
  unfold SetDescription. cbv zeta. apply bind_Ok in Hl as (l1 & Hm & Hw).
  rewrite (bind_Ok_eq _ _ _ Hm), (bind_Ok_eq _ _ _ Hw).
  eexists. split; [reflexivity|]. simpl. by split_and!.
Qed.

Lemma SetDescription_stores_the_truncated_string_witness :
  let long := replicate 100 65 ++ [0] in
  exists e', SetDescription Ex3.strlen Ex3.entry0 long = Ok e' /\
    c_str (m_aDescStr e') = take 63 (c_str long) /\
    length (m_aDescStr e') = 64%nat /\
    (forall k, (Z.to_nat (Z.min 63 (Ex3.strlen long)) < k)%nat ->
               m_aDescStr e' !! k = m_aDescStr Ex3.entry0 !! k) /\
    m_aActionStr e' = m_aActionStr Ex3.entry0 /\
    m_pPrev e' = m_pPrev Ex3.entry0 /\ m_pNext e' = m_pNext Ex3.entry0 /\
    m_pSnap e' = m_pSnap Ex3.entry0.
Proof.
  intros long.
  apply (SetDescription_stores_the_truncated_string Ex3.strlen Ex3.entry0 long).
  - reflexivity.
  - vm_compute. reflexivity.
Defined.

(** * Before [Init] *)

(** X27: on an allocator that [Init] has not set up, as the constructor
    leaves it, [Alloc] and [AllocOne] fail the assertion of [Alloc]
    before they read the bitmap, whatever the count and the state of
    the heap. *)
Theorem Alloc_before_Init_asserts {T : Type} (zeroT : T) CONF_DEBUG (h : Heap T) a Count :
  m_pElementBuffer a = 0 ->
  Alloc zeroT CONF_DEBUG h a Count = Fault (AssertFailed "Forgot to call Init()") /\
  AllocOne zeroT CONF_DEBUG h a = Fault (AssertFailed "Forgot to call Init()").
Proof.
  intros Ha. unfold AllocOne, Alloc, dbg_assert. rewrite Ha. split; reflexivity.
Qed.

Lemma Alloc_before_Init_asserts_witness :
  Alloc 0 true Ex.heap0 CChainAllocator_new 5 = Fault (AssertFailed "Forgot to call Init()") /\
  AllocOne 0 true Ex.heap0 CChainAllocator_new = Fault (AssertFailed "Forgot to call Init()").
Proof.
  apply (Alloc_before_Init_asserts 0 true Ex.heap0 CChainAllocator_new 5). reflexivity.
Defined.

(** * The allocation of [Init], in bytes *)

(** X28: [Init] allocates [TOTAL_RING_COUNT + sizeof(T) * ELT_COUNT_MAX]
    bytes but starts the buffer [ELT_COUNT_MAX] bytes into them. With
    rings of two elements or more that divide the size, a block of the
    pool that holds the last ring ends [ELT_COUNT_MAX -
    TOTAL_RING_COUNT] bytes past the end of the allocation; with rings
    of one element every block of the pool ends inside it. *)
Theorem last_ring_ends_past_the_allocation {T : Type} sizeof_T (h : Heap T)
    a M R h' a' b s c :
  0 < brk h -> 0 <= sizeof_T -> 0 < M -> 1 <= R -> M `mod` R = 0 ->
  Init sizeof_T h a M R = Ok (h', a') ->
  pool_block a' b s c ->
  (R = 1 -> byte_offset sizeof_T a' (m_pStart b + m_Count b) <= AllocatedSize a') /\
  (2 <= R -> s + c = M ÷ R ->
   byte_offset sizeof_T a' (m_pStart b + m_Count b) = AllocatedSize a' + (M - M ÷ R) /\
   AllocatedSize a' < byte_offset sizeof_T a' (m_pStart b + m_Count b)).
Proof.
  intros Hbrk Hsz HM HR Hmod H (Hp & Hc & Hs & Hc0 & Hsc).
  pose proof H as HI. unfold Init in H.
  bind_ok H TOTAL Hdiv. bind_ok H u Hu. bind_ok H hp Halloc.
  destruct hp as [h1 p]. injection H as <- <-.
  apply int_div_Ok in Hdiv as [_ ->].
  unfold byte_offset, AllocatedSize. simpl in *. rewrite Hp, Hc.
  rewrite Z.quot_div_nonneg in * by lia.
  pose proof (Z.div_exact M R ltac:(lia)) as [_ Hex]. specialize (Hex Hmod).
  split.
  - intros ->. rewrite Z.div_1_r in *. nia.
  - intros HR2 Hlast.
    assert (M `div` R < M) by (apply Z.div_lt; lia).
    split; nia.
Qed.

Lemma last_ring_ends_past_the_allocation_witness :
  let a' := Ex.pool64.2 in
  let b := {| m_pStart := 1000; m_Count := 64 |} in
  AllocatedSize a' = 264 /\ byte_offset 4 a' (m_pStart b + m_Count b) = 320 /\
  (8 = 1 -> byte_offset 4 a' (m_pStart b + m_Count b) <= AllocatedSize a') /\
  (2 <= 8 -> 0 + 8 = 64 ÷ 8 ->
   byte_offset 4 a' (m_pStart b + m_Count b) = AllocatedSize a' + (64 - 64 ÷ 8) /\
   AllocatedSize a' < byte_offset 4 a' (m_pStart b + m_Count b)).
Proof.
  intros a' b. split; [reflexivity|]. split; [reflexivity|].
  apply (last_ring_ends_past_the_allocation 4 Ex.heap0 CChainAllocator_new 64 8
           Ex.pool64.1 a' b 0 8).
  - reflexivity.
  - discriminate.
  - reflexivity.
  - discriminate.
  - reflexivity.
  - reflexivity.
  - unfold pool_block. vm_compute. repeat split; discriminate.
Defined.
